(** * Remote-support pairing service: session gateway and peer negotiation

    A shallow embedding of the room registry ([src/server/memoryStore.js]),
    the socket gateway ([src/server/socket.js]) and the endpoint-side
    negotiation controller ([WebRtcManager], the compiled [webrtc.js]),
    followed by the properties of the specification that are settled on
    this embedding.

    JavaScript objects that the handlers mutate in place are threaded
    explicitly: a handler reads a room from the registry, computes the
    mutated room and stores it back under the key it was read from.  The
    registry is a JavaScript [Map]; its iteration order (insertion order)
    is observable through [findRoomByUserId], so it is an association list. *)

From Stdlib Require Import String Ascii List Bool ZArith NArith Lia.
Import ListNotations.
Local Open Scope string_scope.
Local Open Scope list_scope.

(** ** JavaScript values carried by payloads *)

Module Js.

(** An IEEE-754 double, kept as data: [significand * 2 ^ exponent], the
    two infinities, or NaN.  Arithmetic on doubles is never computed here. *)
Inductive JsNum : Type :=
| NumFinite (significand exponent : Z)
| NumInfinity (negative : bool)
| NumNaN.

#[warnings="-register-all"]
Inductive JsValue : Type :=
| JsUndefined
| JsNull
| JsBool (b : bool)
| JsNumber (x : JsNum)
| JsString (s : string)
| JsObject (props : list (string * JsValue)).

(** [payload.name]: own-property read; a missing property, and any
    property of a primitive, reads as [undefined]. *)
Fixpoint lookup_prop (name : string) (props : list (string * JsValue)) : JsValue :=
  match props with
  | [] => JsUndefined
  | (k, v) :: rest => if (k =? name)%string then v else lookup_prop name rest
  end.

Definition get (v : JsValue) (name : string) : JsValue :=
  match v with
  | JsObject props => lookup_prop name props
  | _ => JsUndefined
  end.

(** [typeof value === "object" && value !== null] *)
Definition isRecord (value : JsValue) : bool :=
  match value with JsObject _ => true | _ => false end.

Definition isString (value : JsValue) : bool :=
  match value with JsString _ => true | _ => false end.

Definition isBoolean (value : JsValue) : bool :=
  match value with JsBool _ => true | _ => false end.

Definition isNumber (value : JsValue) : bool :=
  match value with JsNumber _ => true | _ => false end.

(** [value !== undefined && value !== null] *)
Definition isPresent (value : JsValue) : bool :=
  match value with JsUndefined | JsNull => false | _ => true end.

(** The string held by a value already known to be a string. *)
Definition str (value : JsValue) : string :=
  match value with JsString s => s | _ => EmptyString end.

Definition bool_of (value : JsValue) : bool :=
  match value with JsBool b => b | _ => false end.

(** Truthiness of a string and of an optional string field
    ([undefined] when the field is absent). *)
Definition truthy_string (s : string) : bool := negb (s =? EmptyString)%string.

Definition truthy (field : option string) : bool :=
  match field with
  | Some s => truthy_string s
  | None => false
  end.

Fixpoint all_chars (p : ascii -> bool) (s : string) : bool :=
  match s with
  | EmptyString => true
  | String c rest => p c && all_chars p rest
  end.

Definition between (lo hi : N) (c : ascii) : bool :=
  let n := N_of_ascii c in (lo <=? n)%N && (n <=? hi)%N.

(** [\d] *)
Definition is_digit (c : ascii) : bool := between 48 57 c.

(** [[a-z0-9-]] under the [i] flag *)
Definition is_user_id_char (c : ascii) : bool :=
  between 97 122 c || between 65 90 c || is_digit c || (N_of_ascii c =? 45)%N.

End Js.

Import Js.

(** ** The room registry ([memoryStore.js]) *)

Inductive Role : Type := host | client.

Definition UserId := string.
Definition SocketId := string.
Definition RoomId := string.

Record Room : Type := mkRoom {
  id : RoomId;
  hostUserId : UserId;
  clientUserId : option UserId;
  hostSocketId : option SocketId;
  clientSocketId : option SocketId;
  controlActive : bool;
  cameraActive : bool
}.

Definition set_clientUserId (v : option UserId) (r : Room) : Room :=
  mkRoom (id r) (hostUserId r) v (hostSocketId r) (clientSocketId r)
         (controlActive r) (cameraActive r).

Definition set_hostSocketId (v : option SocketId) (r : Room) : Room :=
  mkRoom (id r) (hostUserId r) (clientUserId r) v (clientSocketId r)
         (controlActive r) (cameraActive r).

Definition set_clientSocketId (v : option SocketId) (r : Room) : Room :=
  mkRoom (id r) (hostUserId r) (clientUserId r) (hostSocketId r) v
         (controlActive r) (cameraActive r).

Definition set_controlActive (v : bool) (r : Room) : Room :=
  mkRoom (id r) (hostUserId r) (clientUserId r) (hostSocketId r)
         (clientSocketId r) v (cameraActive r).

Definition set_cameraActive (v : bool) (r : Room) : Room :=
  mkRoom (id r) (hostUserId r) (clientUserId r) (hostSocketId r)
         (clientSocketId r) (controlActive r) v.

(** [a === b] where [a] is an optional string field and [b] a string. *)
Definition field_is (field : option string) (s : string) : bool :=
  match field with
  | Some x => (x =? s)%string
  | None => false
  end.

(** [a === b] on two optional string fields ([undefined === undefined]). *)
Definition field_eqb (a b : option string) : bool :=
  match a, b with
  | Some x, Some y => (x =? y)%string
  | None, None => true
  | _, _ => false
  end.

Module MemoryStore.

(** [rooms]: a [Map] from room code to room, in insertion order. *)
Definition RoomMap := list (RoomId * Room).

(** [/^\d{6}$/] *)
Definition ROOM_ID_PATTERN (s : string) : bool :=
  (String.length s =? 6)%nat && all_chars is_digit s.

Fixpoint has (roomId : RoomId) (rooms : RoomMap) : bool :=
  match rooms with
  | [] => false
  | (k, _) :: rest => (k =? roomId)%string || has roomId rest
  end.

(** [rooms.get(roomId)] *)
Fixpoint getRoom (rooms : RoomMap) (roomId : RoomId) : option Room :=
  match rooms with
  | [] => None
  | (k, room) :: rest => if (k =? roomId)%string then Some room else getRoom rest roomId
  end.

(** Storing back the room object that was read under [roomId] and then
    mutated: the entry keeps its place in the iteration order. *)
Fixpoint put (roomId : RoomId) (room : Room) (rooms : RoomMap) : RoomMap :=
  match rooms with
  | [] => []
  | (k, old) :: rest =>
      if (k =? roomId)%string then (k, room) :: rest
      else (k, old) :: put roomId room rest
  end.

(** [rooms.set(roomId, room)] *)
Definition set (roomId : RoomId) (room : Room) (rooms : RoomMap) : RoomMap :=
  if has roomId rooms then put roomId room rooms else rooms ++ [(roomId, room)].

(** Decimal digits of [n], least significant first; [fuel] bounds the
    number of digits. *)
Fixpoint digits_rev (fuel : nat) (n : N) : list ascii :=
  match fuel with
  | O => []
  | S fuel' =>
      let d := ascii_of_N (48 + n mod 10) in
      if (n <? 10)%N then [d] else d :: digits_rev fuel' (n / 10)
  end.

(** [n.toString()] for a non-negative integer. *)
Definition toString (n : N) : string :=
  string_of_list_ascii (rev (digits_rev (S (N.to_nat (N.log2 n))) n)).

Fixpoint repeat_char (c : ascii) (n : nat) : string :=
  match n with
  | O => EmptyString
  | S n' => String c (repeat_char c n')
  end.

(** [s.padStart(width, "0")] *)
Definition padStart0 (width : nat) (s : string) : string :=
  repeat_char "0"%char (width - String.length s) ++ s.

(** [randomRoomId]: [draw] is [Math.floor(Math.random() * 1_000_000)]. *)
Definition randomRoomId (draw : N) : RoomId := padStart0 6 (toString draw).

(** [ensureRoomId]: the loop over at most 1_000_000 attempts, each
    consuming one draw of the random source; [None] is the thrown
    ["Unable to generate unique room code."]. *)
Fixpoint ensureRoomId_from (attempts : N) (draws : list N) (rooms : RoomMap)
  : option RoomId :=
  match draws with
  | [] => None
  | draw :: later =>
      if (attempts <? 1000000)%N then
        let roomId := randomRoomId draw in
        if negb (ROOM_ID_PATTERN roomId) then
          ensureRoomId_from (attempts + 1) later rooms
        else if negb (has roomId rooms) then Some roomId
        else ensureRoomId_from (attempts + 1) later rooms
      else None
  end.

Definition ensureRoomId (draws : list N) (rooms : RoomMap) : option RoomId :=
  ensureRoomId_from 0 draws rooms.

Definition createRoom (draws : list N) (hostUserId : UserId) (hostSocketId : SocketId)
           (rooms : RoomMap) : option (Room * RoomMap) :=
  match ensureRoomId draws rooms with
  | None => None
  | Some roomId =>
      let room := mkRoom roomId hostUserId None (Some hostSocketId) None false false in
      Some (room, set (id room) room rooms)
  end.

(** [findRoomByUserId]: the first room, in iteration order, that names
    the user; the key locates the room object for later mutation. *)
Fixpoint findRoomByUserId (rooms : RoomMap) (userId : UserId)
  : option (RoomId * Room * Role) :=
  match rooms with
  | [] => None
  | (k, room) :: rest =>
      if (hostUserId room =? userId)%string then Some (k, room, host)
      else if field_is (clientUserId room) userId then Some (k, room, client)
      else findRoomByUserId rest userId
  end.

Fixpoint findRoomBySocketId (rooms : RoomMap) (socketId : SocketId)
  : option (RoomId * Room * Role) :=
  match rooms with
  | [] => None
  | (k, room) :: rest =>
      if field_is (hostSocketId room) socketId then Some (k, room, host)
      else if field_is (clientSocketId room) socketId then Some (k, room, client)
      else findRoomBySocketId rest socketId
  end.

Definition attachSocket (room : Room) (role : Role) (socketId : SocketId) : Room :=
  match role with
  | host => set_hostSocketId (Some socketId) room
  | client => set_clientSocketId (Some socketId) room
  end.

Definition clearSocket (room : Room) (role : Role) : Room :=
  let room1 :=
    match role with
    | host => set_hostSocketId None room
    | client => set_clientSocketId None room
    end in
  set_cameraActive false (set_controlActive false room1).

(** [removeSocket]: the registry after the mutation, and what was found. *)
Definition removeSocket (rooms : RoomMap) (socketId : SocketId)
  : option (RoomMap * Room * Role) :=
  match findRoomBySocketId rooms socketId with
  | None => None
  | Some (k, room, role) =>
      let room' := clearSocket room role in
      Some (put k room' rooms, room', role)
  end.

Definition canUserControlRoom (room : Room) (userId : UserId) : bool :=
  (hostUserId room =? userId)%string.

Definition canUserActAsClient (room : Room) (userId : UserId) : bool :=
  field_is (clientUserId room) userId.

End MemoryStore.

(** ** The session gateway ([socket.js]) *)

Module Gateway.

Import MemoryStore.

Definition ROOM_ID_PATTERN := MemoryStore.ROOM_ID_PATTERN.

(** [/^[a-z0-9-]{10,80}$/i] *)
Definition USER_ID_PATTERN (s : string) : bool :=
  (10 <=? String.length s)%nat && (String.length s <=? 80)%nat
  && all_chars is_user_id_char s.

Definition isRoomId (value : JsValue) : bool :=
  isString value && ROOM_ID_PATTERN (str value).

Definition isUserId (value : JsValue) : bool :=
  isString value && USER_ID_PATTERN (str value).

Definition isRole (value : JsValue) : bool :=
  match value with
  | JsString s => (s =? "host")%string || (s =? "client")%string
  | _ => false
  end.

Definition role_of (value : JsValue) : Role :=
  if (str value =? "host")%string then host else client.

Definition isIdentifyPayload (payload : JsValue) : bool :=
  isRecord payload && isUserId (get payload "userId").

Definition isRoomJoinPayload (payload : JsValue) : bool :=
  isRecord payload && isRoomId (get payload "roomId").

Definition isRejoinRoomPayload (payload : JsValue) : bool :=
  isRecord payload && isRoomId (get payload "roomId") && isRole (get payload "role").

Definition isControlStatusPayload (payload : JsValue) : bool :=
  isRecord payload && isRoomId (get payload "roomId") && isBoolean (get payload "active").

Definition isCameraRequestPayload (payload : JsValue) : bool :=
  isRecord payload && isRoomId (get payload "roomId").

Definition isCameraPermissionPayload (payload : JsValue) : bool :=
  isRecord payload && isRoomId (get payload "roomId") && isBoolean (get payload "granted").

Definition isCameraStatePayload (payload : JsValue) : bool :=
  isRecord payload && isRoomId (get payload "roomId") && isBoolean (get payload "active").

Definition isStreamKind (value : JsValue) : bool :=
  match value with
  | JsString s => (s =? "screen")%string || (s =? "camera")%string
  | _ => false
  end.

Definition isMediaKindPayload (payload : JsValue) : bool :=
  isRecord payload && isRoomId (get payload "roomId")
  && isString (get payload "streamId")
  && (0 <? String.length (str (get payload "streamId")))%nat
  && isStreamKind (get payload "kind").

Definition isIceCandidatePayload (payload : JsValue) : bool :=
  if negb (isRecord payload) then false
  else if negb (isString (get payload "candidate")) then false
  else if isPresent (get payload "sdpMid") && negb (isString (get payload "sdpMid"))
  then false
  else if isPresent (get payload "sdpMLineIndex")
          && negb (isNumber (get payload "sdpMLineIndex"))
  then false
  else if isPresent (get payload "usernameFragment")
          && negb (isString (get payload "usernameFragment"))
  then false
  else true.

Definition isWebRtcSignal (payload : JsValue) : bool :=
  if negb (isRecord payload) || negb (isString (get payload "type")) then false
  else
    let type := str (get payload "type") in
    if (type =? "offer")%string || (type =? "answer")%string then
      isString (get payload "sdp") && (0 <? String.length (str (get payload "sdp")))%nat
    else if (type =? "ice-candidate")%string then
      isIceCandidatePayload (get payload "candidate")
    else false.

Definition isWebRtcSignalPayload (payload : JsValue) : bool :=
  isRecord payload && isRoomId (get payload "roomId")
  && isWebRtcSignal (get payload "signal").

(** Messages the gateway sends; a room inside a message is the snapshot
    [{ ...room }] taken when the message is built. *)
Inductive Outbound : Type :=
| socket_ready (socketId : SocketId)
| room_error (message : string)
| identify_ok (userId : UserId) (restored : bool) (role : option Role) (room : option Room)
| session_restored (room : Room) (role : Role)
| peer_reconnected (roomId : RoomId) (role : Role) (userId : option UserId)
| room_update (room : Room)
| room_created (room : Room)
| room_joined (room : Room)
| room_client_joined (room : Room) (clientUserId : UserId)
| room_rejoined (room : Room) (role : Role)
| webrtc_signal (roomId : RoomId) (fromUserId : UserId) (signal : JsValue)
| camera_request (roomId : RoomId) (hostUserId : UserId)
| camera_permission (roomId : RoomId) (granted : bool)
| media_kind (roomId : RoomId) (streamId : string) (kind : string)
| peer_disconnected (roomId : RoomId) (role : Role).

(** One [emit]: the socket id it is addressed to, and the message. *)
Definition Emission := (SocketId * Outbound)%type.

(** The process state the handlers share: the registry and, for every
    connected socket, its [socket.data.userId] ([None] until identified). *)
Record Gateway : Type := mkGateway {
  rooms : RoomMap;
  sockets : list (SocketId * option UserId)
}.

Definition initial : Gateway := mkGateway [] [].

Fixpoint find_socket (table : list (SocketId * option UserId)) (socketId : SocketId)
  : option (option UserId) :=
  match table with
  | [] => None
  | (k, data) :: rest =>
      if (k =? socketId)%string then Some data else find_socket rest socketId
  end.

Fixpoint set_socket_userId (table : list (SocketId * option UserId))
         (socketId : SocketId) (userId : UserId) : list (SocketId * option UserId) :=
  match table with
  | [] => []
  | (k, data) :: rest =>
      if (k =? socketId)%string then (k, Some userId) :: rest
      else (k, data) :: set_socket_userId rest socketId userId
  end.

Fixpoint remove_socket (table : list (SocketId * option UserId)) (socketId : SocketId)
  : list (SocketId * option UserId) :=
  match table with
  | [] => []
  | (k, data) :: rest =>
      if (k =? socketId)%string then rest else (k, data) :: remove_socket rest socketId
  end.

Definition connected (g : Gateway) (socketId : SocketId) : bool :=
  match find_socket (sockets g) socketId with Some _ => true | None => false end.

(** [getUserId(socket)] for the connected socket [socketId]. *)
Definition getUserId (g : Gateway) (socketId : SocketId) : option UserId :=
  match find_socket (sockets g) socketId with
  | Some data => data
  | None => None
  end.

Definition with_rooms (g : Gateway) (rooms' : RoomMap) : Gateway :=
  mkGateway rooms' (sockets g).

(** The room object read under [roomId] now holds [room]. *)
Definition store (g : Gateway) (roomId : RoomId) (room : Room) : Gateway :=
  with_rooms g (put roomId room (rooms g)).

(** [emitError(socket, message); return] *)
Definition reject (g : Gateway) (socketId : SocketId) (message : string)
  : Gateway * list Emission :=
  (g, [(socketId, room_error message)]).

Definition isCurrentSocketForRole (room : Room) (role : Role) (socketId : SocketId) : bool :=
  match role with
  | host => field_is (hostSocketId room) socketId
  | client => field_is (clientSocketId room) socketId
  end.

Definition roleOfUserInRoom (room : Room) (userId : UserId) : option Role :=
  if (hostUserId room =? userId)%string then Some host
  else if field_is (clientUserId room) userId then Some client
  else None.

Definition roomPeerSocketId (room : Room) (role : Role) : option SocketId :=
  let peerSocketId :=
    match role with host => clientSocketId room | client => hostSocketId room end in
  let selfSocketId :=
    match role with host => hostSocketId room | client => clientSocketId room end in
  if negb (truthy peerSocketId) || field_eqb peerSocketId selfSocketId then None
  else peerSocketId.

Definition normalizeRoomState (room : Room) : Room :=
  let clash_user :=
    truthy (clientUserId room) && field_is (clientUserId room) (hostUserId room) in
  let room1 := if clash_user then set_clientUserId None room else room in
  let clash_socket :=
    truthy (clientSocketId room1) && truthy (hostSocketId room1)
    && field_eqb (clientSocketId room1) (hostSocketId room1) in
  let room2 := if clash_socket then set_clientSocketId None room1 else room1 in
  let orphan_socket :=
    negb (truthy (clientUserId room2)) && truthy (clientSocketId room2) in
  let room3 := if orphan_socket then set_clientSocketId None room2 else room2 in
  let changed := clash_user || clash_socket || orphan_socket in
  if changed then set_cameraActive false (set_controlActive false room3) else room3.

(** [socketUserIdBySocketId]: [None] when no such socket is connected. *)
Definition socketUserIdBySocketId (g : Gateway) (socketId : SocketId) : option UserId :=
  match find_socket (sockets g) socketId with
  | None => None
  | Some _ => getUserId g socketId
  end.

Definition emitRoomUpdate (room : Room) : list Emission :=
  (if truthy (hostSocketId room)
   then match hostSocketId room with Some s => [(s, room_update room)] | None => [] end
   else [])
  ++
  (if truthy (clientSocketId room)
   then match clientSocketId room with Some s => [(s, room_update room)] | None => [] end
   else []).

(** [restoreSession]: the room after the call and what was emitted;
    [socket.join(room.id)] has no effect any handler can observe, since
    nothing is ever emitted to a room code. *)
Definition restoreSession (g : Gateway) (socketId : SocketId) (room : Room) (role : Role)
  : Room * list Emission :=
  let room1 := normalizeRoomState room in
  let room2 := attachSocket room1 role socketId in
  let room3 := normalizeRoomState room2 in
  let restored := [(socketId, session_restored room3 role)] in
  let reconnected :=
    match roomPeerSocketId room3 role with
    | Some peerSocketId =>
        [(peerSocketId, peer_reconnected (id room3) role (getUserId g socketId))]
    | None => []
    end in
  (room3, restored ++ reconnected ++ emitRoomUpdate room3).

(** [ensureIdentified]: [None] stands for the emitted ["Identify first."]
    and the [null] result. *)
Definition ensureIdentified (g : Gateway) (socketId : SocketId) : option UserId :=
  match getUserId g socketId with
  | Some userId => if truthy_string userId then Some userId else None
  | None => None
  end.

Definition identify_first (g : Gateway) (socketId : SocketId) : Gateway * list Emission :=
  reject g socketId "Identify first.".

(** *** The event handlers registered on every connection

    Each handler takes the process state, the id of the socket the event
    arrived on and the payload, and returns the state after the handler
    together with the emissions in the order they were made. *)

Definition on_identify (g : Gateway) (socketId : SocketId) (payload : JsValue)
  : Gateway * list Emission :=
  if negb (isIdentifyPayload payload) then reject g socketId "Invalid identify payload."
  else
    let userId := str (get payload "userId") in
    let g1 := mkGateway (rooms g) (set_socket_userId (sockets g) socketId userId) in
    match findRoomByUserId (rooms g1) userId with
    | None => (g1, [(socketId, identify_ok userId false None None)])
    | Some (key, room, role) =>
        let '(room', out) := restoreSession g1 socketId room role in
        (store g1 key room',
         out ++ [(socketId, identify_ok userId true (Some role) (Some room'))])
    end.

(** [draws] are the values [Math.floor(Math.random() * 1_000_000)] takes
    in the attempts of [ensureRoomId].  When [createRoom] throws, the
    exception leaves the handler before the registry is touched. *)
Definition on_room_create (g : Gateway) (socketId : SocketId) (draws : list N)
  : Gateway * list Emission :=
  match ensureIdentified g socketId with
  | None => identify_first g socketId
  | Some userId =>
      match findRoomByUserId (rooms g) userId with
      | Some (key, room, host) =>
          let '(room', out) := restoreSession g socketId room host in
          (store g key room', out ++ [(socketId, room_created room')])
      | Some (_, _, client) =>
          reject g socketId "Already joined another room as client."
      | None =>
          match createRoom draws userId socketId (rooms g) with
          | None => (g, [])
          | Some (room, rooms') =>
              (with_rooms g rooms',
               [(socketId, room_created room)] ++ emitRoomUpdate room)
          end
      end
  end.

Definition on_room_join (g : Gateway) (socketId : SocketId) (payload : JsValue)
  : Gateway * list Emission :=
  if negb (isRoomJoinPayload payload) then reject g socketId "Invalid room join payload."
  else
    match ensureIdentified g socketId with
    | None => identify_first g socketId
    | Some userId =>
        let roomId := str (get payload "roomId") in
        match getRoom (rooms g) roomId with
        | None => reject g socketId "Room not found."
        | Some room0 =>
            let room := normalizeRoomState room0 in
            let g1 := store g roomId room in
            let elsewhere :=
              match findRoomByUserId (rooms g1) userId with
              | Some (_, existing, _) => negb (id existing =? id room)%string
              | None => false
              end in
            if elsewhere then reject g1 socketId "Already attached to another room."
            else if (hostUserId room =? userId)%string then
              reject g1 socketId "Host cannot join as client."
            else if truthy (clientUserId room)
                    && negb (field_is (clientUserId room) userId)
                    && truthy (clientSocketId room)
            then reject g1 socketId "Room already has a different client."
            else
              let room' :=
                set_cameraActive false
                  (set_controlActive false
                     (set_clientSocketId (Some socketId)
                        (set_clientUserId (Some userId) room))) in
              (store g1 roomId room',
               [(socketId, room_joined room')]
               ++ (if truthy (hostSocketId room')
                   then match hostSocketId room' with
                        | Some h => [(h, room_client_joined room' userId)]
                        | None => []
                        end
                   else [])
               ++ emitRoomUpdate room')
        end
    end.

Definition on_rejoin_room (g : Gateway) (socketId : SocketId) (payload : JsValue)
  : Gateway * list Emission :=
  if negb (isRejoinRoomPayload payload) then reject g socketId "Invalid rejoin payload."
  else
    match ensureIdentified g socketId with
    | None => identify_first g socketId
    | Some userId =>
        let roomId := str (get payload "roomId") in
        let role := role_of (get payload "role") in
        match getRoom (rooms g) roomId with
        | None => reject g socketId "Room not found for rejoin."
        | Some room0 =>
            let room := normalizeRoomState room0 in
            let g1 := store g roomId room in
            let restore (r : Room) :=
              let '(room', out) := restoreSession g1 socketId r role in
              (store g1 roomId room', out ++ [(socketId, room_rejoined room' role)]) in
            match role with
            | host =>
                if negb (hostUserId room =? userId)%string then
                  reject g1 socketId "Only host owner can rejoin as host."
                else restore room
            | client =>
                if (hostUserId room =? userId)%string then
                  reject g1 socketId "Host cannot rejoin as client."
                else
                  let room1 :=
                    if negb (truthy (clientUserId room))
                    then set_clientUserId (Some userId) room else room in
                  if negb (field_is (clientUserId room1) userId) then
                    reject (store g1 roomId room1) socketId
                           "Only assigned client can rejoin as client."
                  else restore room1
            end
        end
    end.

Definition on_webrtc_signal (g : Gateway) (socketId : SocketId) (payload : JsValue)
  : Gateway * list Emission :=
  if negb (isWebRtcSignalPayload payload) then
    reject g socketId "Invalid WebRTC signal payload."
  else
    match ensureIdentified g socketId with
    | None => identify_first g socketId
    | Some userId =>
        let roomId := str (get payload "roomId") in
        match getRoom (rooms g) roomId with
        | None => reject g socketId "Room not found for signaling."
        | Some room0 =>
            let room := normalizeRoomState room0 in
            let g1 := store g roomId room in
            match roleOfUserInRoom room userId with
            | None => reject g1 socketId "Unauthorized signaling attempt."
            | Some role =>
                if negb (isCurrentSocketForRole room role socketId) then
                  reject g1 socketId "Stale socket signaling rejected."
                else
                  match roomPeerSocketId room role with
                  | None => (g1, [])
                  | Some targetSocketId =>
                      (g1, [(targetSocketId,
                             webrtc_signal (id room) userId (get payload "signal"))])
                  end
            end
        end
    end.

Definition on_control_status (g : Gateway) (socketId : SocketId) (payload : JsValue)
  : Gateway * list Emission :=
  if negb (isControlStatusPayload payload) then
    reject g socketId "Invalid control status payload."
  else
    match ensureIdentified g socketId with
    | None => identify_first g socketId
    | Some userId =>
        let roomId := str (get payload "roomId") in
        match getRoom (rooms g) roomId with
        | None => reject g socketId "Room not found for control update."
        | Some room0 =>
            let room := normalizeRoomState room0 in
            let g1 := store g roomId room in
            if negb (canUserControlRoom room userId)
               || negb (field_is (hostSocketId room) socketId)
            then reject g1 socketId "Only active host can update control state."
            else
              let room' :=
                set_controlActive
                  (bool_of (get payload "active") && truthy (clientSocketId room)) room in
              (store g1 roomId room', emitRoomUpdate room')
        end
    end.

Definition on_camera_request (g : Gateway) (socketId : SocketId) (payload : JsValue)
  : Gateway * list Emission :=
  if negb (isCameraRequestPayload payload) then
    reject g socketId "Invalid camera request payload."
  else
    match ensureIdentified g socketId with
    | None => identify_first g socketId
    | Some userId =>
        let roomId := str (get payload "roomId") in
        match getRoom (rooms g) roomId with
        | None => reject g socketId "Room not found for camera request."
        | Some room0 =>
            let room := normalizeRoomState room0 in
            let g1 := store g roomId room in
            if negb (canUserControlRoom room userId)
               || negb (field_is (hostSocketId room) socketId)
            then reject g1 socketId "Only host can request camera."
            else
              match clientSocketId room with
              | None => reject g1 socketId "No connected client available."
              | Some client_socket =>
                  if negb (truthy_string client_socket) then
                    reject g1 socketId "No connected client available."
                  else
                    let targetUserId := socketUserIdBySocketId g1 client_socket in
                    if negb (truthy (clientUserId room))
                       || negb (truthy targetUserId)
                       || negb (field_eqb targetUserId (clientUserId room))
                       || field_is targetUserId (hostUserId room)
                    then
                      let room1 := set_clientSocketId None room in
                      let room2 :=
                        if field_is (clientUserId room1) (hostUserId room1)
                        then set_clientUserId None room1 else room1 in
                      let room3 :=
                        set_cameraActive false (set_controlActive false room2) in
                      (store g1 roomId room3,
                       emitRoomUpdate room3
                       ++ [(socketId, room_error "No valid connected client available.")])
                    else
                      (g1, [(client_socket, camera_request (id room) (hostUserId room))])
              end
        end
    end.

Definition on_camera_permission (g : Gateway) (socketId : SocketId) (payload : JsValue)
  : Gateway * list Emission :=
  if negb (isCameraPermissionPayload payload) then
    reject g socketId "Invalid camera permission payload."
  else
    match ensureIdentified g socketId with
    | None => identify_first g socketId
    | Some userId =>
        let roomId := str (get payload "roomId") in
        match getRoom (rooms g) roomId with
        | None => reject g socketId "Room not found for camera permission."
        | Some room0 =>
            let room := normalizeRoomState room0 in
            let g1 := store g roomId room in
            if negb (canUserActAsClient room userId)
               || negb (field_is (clientSocketId room) socketId)
            then reject g1 socketId "Only active client can report camera permission."
            else
              let granted := bool_of (get payload "granted") in
              let room' := if negb granted then set_cameraActive false room else room in
              (store g1 roomId room',
               (if truthy (hostSocketId room')
                then match hostSocketId room' with
                     | Some h => [(h, camera_permission (id room') granted)]
                     | None => []
                     end
                else [])
               ++ emitRoomUpdate room')
        end
    end.

Definition on_camera_state (g : Gateway) (socketId : SocketId) (payload : JsValue)
  : Gateway * list Emission :=
  if negb (isCameraStatePayload payload) then
    reject g socketId "Invalid camera state payload."
  else
    match ensureIdentified g socketId with
    | None => identify_first g socketId
    | Some userId =>
        let roomId := str (get payload "roomId") in
        match getRoom (rooms g) roomId with
        | None => reject g socketId "Room not found for camera state."
        | Some room0 =>
            let room := normalizeRoomState room0 in
            let g1 := store g roomId room in
            if negb (canUserActAsClient room userId)
               || negb (field_is (clientSocketId room) socketId)
            then reject g1 socketId "Only active client can update camera state."
            else
              let room' := set_cameraActive (bool_of (get payload "active")) room in
              (store g1 roomId room', emitRoomUpdate room')
        end
    end.

Definition on_media_kind (g : Gateway) (socketId : SocketId) (payload : JsValue)
  : Gateway * list Emission :=
  if negb (isMediaKindPayload payload) then
    reject g socketId "Invalid media metadata payload."
  else
    match ensureIdentified g socketId with
    | None => identify_first g socketId
    | Some userId =>
        let roomId := str (get payload "roomId") in
        match getRoom (rooms g) roomId with
        | None => reject g socketId "Room not found for media metadata."
        | Some room0 =>
            let room := normalizeRoomState room0 in
            let g1 := store g roomId room in
            if negb (canUserActAsClient room userId)
               || negb (field_is (clientSocketId room) socketId)
            then reject g1 socketId "Only active client can publish media metadata."
            else
              (g1,
               if truthy (hostSocketId room)
               then match hostSocketId room with
                    | Some h =>
                        [(h, media_kind (id room) (str (get payload "streamId"))
                                        (str (get payload "kind")))]
                    | None => []
                    end
               else [])
        end
    end.

(** The [disconnect] handler; the socket itself leaves the socket table
    in [step]. *)
Definition on_disconnect (g : Gateway) (socketId : SocketId) : Gateway * list Emission :=
  match removeSocket (rooms g) socketId with
  | None => (g, [])
  | Some (rooms', room, role) =>
      let peerSocketId :=
        match role with host => clientSocketId room | client => hostSocketId room end in
      (with_rooms g rooms',
       (if truthy peerSocketId
        then match peerSocketId with
             | Some p => [(p, peer_disconnected (id room) role)]
             | None => []
             end
        else [])
       ++ emitRoomUpdate room)
  end.

(** *** Events and the transition function *)

Inductive Event : Type :=
| EvConnection
| EvIdentify (payload : JsValue)
| EvRoomCreate (draws : list N)
| EvRoomJoin (payload : JsValue)
| EvRejoinRoom (payload : JsValue)
| EvWebrtcSignal (payload : JsValue)
| EvControlStatus (payload : JsValue)
| EvCameraRequest (payload : JsValue)
| EvCameraPermission (payload : JsValue)
| EvCameraState (payload : JsValue)
| EvMediaKind (payload : JsValue)
| EvDisconnect.

(** One event on the socket [socketId].  A connection is a new socket:
    the transport issues every connection an id that is a non-empty
    string and that no connected socket has.  The other events reach a
    handler only on a connected socket, where the handlers were
    registered. *)
Definition step (g : Gateway) (socketId : SocketId) (ev : Event)
  : Gateway * list Emission :=
  match ev with
  | EvConnection =>
      if connected g socketId || negb (truthy_string socketId) then (g, [])
      else (mkGateway (rooms g) (sockets g ++ [(socketId, None)]),
            [(socketId, socket_ready socketId)])
  | _ =>
      if negb (connected g socketId) then (g, [])
      else
        match ev with
        | EvConnection => (g, [])
        | EvIdentify payload => on_identify g socketId payload
        | EvRoomCreate draws => on_room_create g socketId draws
        | EvRoomJoin payload => on_room_join g socketId payload
        | EvRejoinRoom payload => on_rejoin_room g socketId payload
        | EvWebrtcSignal payload => on_webrtc_signal g socketId payload
        | EvControlStatus payload => on_control_status g socketId payload
        | EvCameraRequest payload => on_camera_request g socketId payload
        | EvCameraPermission payload => on_camera_permission g socketId payload
        | EvCameraState payload => on_camera_state g socketId payload
        | EvMediaKind payload => on_media_kind g socketId payload
        | EvDisconnect =>
            let '(g', out) := on_disconnect g socketId in
            (mkGateway (rooms g') (remove_socket (sockets g') socketId), out)
        end
  end.

(** The state after a sequence of events, oldest first. *)
Fixpoint run (g : Gateway) (events : list (SocketId * Event)) : Gateway :=
  match events with
  | [] => g
  | (socketId, ev) :: later => run (fst (step g socketId ev)) later
  end.

Definition emitted (g : Gateway) (socketId : SocketId) (ev : Event) : list Emission :=
  snd (step g socketId ev).

End Gateway.

(** ** The peer negotiation controller ([WebRtcManager]) *)

Module WebRtc.

Record IceCandidate : Type := mkIceCandidate {
  candidate : string;
  sdpMid : option string;
  sdpMLineIndex : option JsNum;
  usernameFragment : option string
}.

Inductive WebRtcSignal : Type :=
| offer (sdp : string)
| answer (sdp : string)
| ice_candidate (candidate : IceCandidate).

(** What the manager takes from the browser.  A promise-returning call
    yields whether the promise resolved and the connection afterwards;
    [createAnswer] resolves to a description whose [sdp] may be missing,
    or rejects ([None]). *)
Class Browser : Type := {
  Connection : Type;
  (** [new RTCPeerConnection(RTC_CONFIGURATION)] *)
  newConnection : Connection;
  (** truthiness of [connection.remoteDescription] *)
  remoteDescription : Connection -> bool;
  setRemoteDescription : Connection -> string -> string -> bool * Connection;
  addIceCandidate : Connection -> IceCandidate -> bool * Connection;
  createAnswer : Connection -> option (option string) * Connection;
  setLocalDescription : Connection -> option string -> bool * Connection;
  createDataChannel : Connection -> string -> Connection;
  (** [JSON.parse]; [None] when it throws *)
  JSON_parse : string -> option JsValue;
  Math_min : JsNum -> JsNum -> JsNum;
  Math_max : JsNum -> JsNum -> JsNum;
  Math_round : JsNum -> JsNum;
  times : JsNum -> JsNum -> JsNum;
  (** [window.innerWidth], [window.innerHeight] *)
  innerWidth : JsNum;
  innerHeight : JsNum;
  (** whether [document.elementFromPoint(x, y)] finds an element *)
  elementFromPoint : JsNum -> JsNum -> bool
}.

(** Calls into the browser and callbacks into the application, in the
    order the manager makes them. *)
Inductive Effect : Type :=
| call_createDataChannel (label : string)
| call_setRemoteDescription (type sdp : string)
| call_addIceCandidate (c : IceCandidate)
| call_createAnswer
| call_createOffer
| call_setLocalDescription (sdp : option string)
| call_closeChannel
| call_close
| onSignal (signal : WebRtcSignal)
| scrollBy (left top : JsNum)
| onRemoteMediaCommand (type : string)
| dispatchEvent (type : string) (clientX clientY : JsNum) (button : JsNum).

Inductive Outcome : Type := returned | threw (message : string).

Definition isFiniteNumber (value : JsValue) : bool :=
  match value with
  | JsNumber (NumFinite _ _) => true
  | _ => false
  end.

Definition num_of (value : JsValue) : JsNum :=
  match value with JsNumber x => x | _ => NumNaN end.

Definition isInboundControlMessage (payload : JsValue) : bool :=
  if negb (isRecord payload) || negb (isString (get payload "type")) then false
  else if negb (isString (get payload "senderUserId"))
          || (String.length (str (get payload "senderUserId")) <? 10)%nat
  then false
  else
    let type := str (get payload "type") in
    if (type =? "mousemove")%string then
      isFiniteNumber (get payload "x") && isFiniteNumber (get payload "y")
    else if (type =? "click")%string then
      isFiniteNumber (get payload "x") && isFiniteNumber (get payload "y")
      && isFiniteNumber (get payload "button")
    else if (type =? "scroll")%string then
      isFiniteNumber (get payload "deltaX") && isFiniteNumber (get payload "deltaY")
    else if (type =? "toggle-camera")%string || (type =? "toggle-mic")%string then true
    else false.

(** The fields of the manager that the negotiation and signalling code
    reads and writes.  The local media streams and their senders are not
    part of this state. *)
Record WebRtcManager `{Browser} : Type := mkManager {
  peerConnection : option Connection;
  controlChannel : bool;
  pendingIceCandidates : list IceCandidate;
  isNegotiating : bool;
  hasQueuedRenegotiation : bool
}.

Arguments mkManager {_} _ _ _ _ _.

(** [event.data] of a data-channel message: a string, or binary data. *)
Inductive RawData : Type :=
| data_string (s : string)
| data_binary.

(** The description an offer or an answer carries. *)
Definition description_of (signal : WebRtcSignal) : option (string * string) :=
  match signal with
  | offer sdp => Some ("offer", sdp)
  | answer sdp => Some ("answer", sdp)
  | ice_candidate _ => None
  end.

Definition is_addIceCandidate (effect : Effect) : bool :=
  match effect with call_addIceCandidate _ => true | _ => false end.

Section Manager.

Context `{Browser}.

Definition fresh : WebRtcManager := mkManager None false [] false false.

Definition clamp (value min max : JsNum) : JsNum :=
  Math_min (Math_max value min) max.

Definition zero : JsNum := NumFinite 0 0.
Definition one : JsNum := NumFinite 1 0.

(** [ensurePeerConnection]: the manager afterwards, the connection, and
    the browser calls made when a connection had to be created.  The
    event handlers it installs on the connection and on the channel run
    later, as calls of their own. *)
Definition ensurePeerConnection (role : option Role) (m : WebRtcManager)
  : WebRtcManager * Connection * list Effect :=
  match peerConnection m with
  | Some connection => (m, connection, [])
  | None =>
      match role with
      | Some client =>
          let connection := createDataChannel newConnection "remote-control" in
          (mkManager (Some connection) true (pendingIceCandidates m)
                     (isNegotiating m) (hasQueuedRenegotiation m),
           connection, [call_createDataChannel "remote-control"])
      | _ =>
          (mkManager (Some newConnection) (controlChannel m) (pendingIceCandidates m)
                     (isNegotiating m) (hasQueuedRenegotiation m),
           newConnection, [])
      end
  end.

(** The connection [ensurePeerConnection] hands out. *)
Definition connection_of (role : option Role) (m : WebRtcManager) : Connection :=
  snd (fst (ensurePeerConnection role m)).

(** [closePeerConnection(preserveLocalStreams)]; stopping the local
    tracks when [preserveLocalStreams] is false happens outside this state. *)
Definition closePeerConnection (preserveLocalStreams : bool) (m : WebRtcManager)
  : WebRtcManager * list Effect :=
  (mkManager None false [] false false,
   (if controlChannel m then [call_closeChannel] else [])
   ++ match peerConnection m with Some _ => [call_close] | None => [] end).

(** The loop of [flushPendingIceCandidates] over the copied queue: a
    rejected [addIceCandidate] is caught and the loop goes on. *)
Fixpoint flush_queue (connection : Connection) (queued : list IceCandidate)
  : Connection * list Effect :=
  match queued with
  | [] => (connection, [])
  | c :: rest =>
      let '(_, connection1) := addIceCandidate connection c in
      let '(connection2, calls) := flush_queue connection1 rest in
      (connection2, call_addIceCandidate c :: calls)
  end.

(** [flushPendingIceCandidates(connection)]: the pending queue
    afterwards, the connection afterwards, the calls made. *)
Definition flushPendingIceCandidates (pending : list IceCandidate) (connection : Connection)
  : list IceCandidate * Connection * list Effect :=
  if negb (remoteDescription connection) then (pending, connection, [])
  else
    let queued := pending in
    let '(connection', calls) := flush_queue connection queued in
    ([], connection', calls).

Definition with_connection (m : WebRtcManager) (pending : list IceCandidate)
           (connection : Connection) : WebRtcManager :=
  mkManager (Some connection) (controlChannel m) pending
            (isNegotiating m) (hasQueuedRenegotiation m).

(** [handleSignal(signal)], each awaited call taken to its settlement
    before the next statement runs. *)
Definition handleSignal (role : option Role) (m : WebRtcManager) (signal : WebRtcSignal)
  : WebRtcManager * list Effect * Outcome :=
  let '(m1, connection, created) := ensurePeerConnection role m in
  match signal with
  | offer sdp =>
      let '(resolved, c1) := setRemoteDescription connection "offer" sdp in
      let e1 := created ++ [call_setRemoteDescription "offer" sdp] in
      if negb resolved then
        (with_connection m1 (pendingIceCandidates m1) c1, e1,
         threw "setRemoteDescription")
      else
        let '(pending, c2, flushed) :=
          flushPendingIceCandidates (pendingIceCandidates m1) c1 in
        let e2 := e1 ++ flushed ++ [call_createAnswer] in
        match createAnswer c2 with
        | (None, c3) => (with_connection m1 pending c3, e2, threw "createAnswer")
        | (Some answer_sdp, c3) =>
            let '(applied, c4) := setLocalDescription c3 answer_sdp in
            let e3 := e2 ++ [call_setLocalDescription answer_sdp] in
            if negb applied then
              (with_connection m1 pending c4, e3, threw "setLocalDescription")
            else
              match answer_sdp with
              | Some text =>
                  if truthy_string text then
                    (with_connection m1 pending c4, e3 ++ [onSignal (answer text)],
                     returned)
                  else
                    (with_connection m1 pending c4, e3, threw "Unable to create answer.")
              | None =>
                  (with_connection m1 pending c4, e3, threw "Unable to create answer.")
              end
        end
  | answer sdp =>
      let '(resolved, c1) := setRemoteDescription connection "answer" sdp in
      let e1 := created ++ [call_setRemoteDescription "answer" sdp] in
      if negb resolved then
        (with_connection m1 (pendingIceCandidates m1) c1, e1,
         threw "setRemoteDescription")
      else
        let '(pending, c2, flushed) :=
          flushPendingIceCandidates (pendingIceCandidates m1) c1 in
        (with_connection m1 pending c2, e1 ++ flushed, returned)
  | ice_candidate c =>
      if remoteDescription connection then
        let '(resolved, c1) := addIceCandidate connection c in
        (with_connection m1 (pendingIceCandidates m1) c1,
         created ++ [call_addIceCandidate c],
         if resolved then returned else threw "addIceCandidate")
      else
        (with_connection m1 (pendingIceCandidates m1 ++ [c]) connection,
         created, returned)
  end.

(** Signals handled one after the other, oldest first; a call that
    throws leaves the manager as it was at the throw. *)
Fixpoint handleSignals (role : option Role) (m : WebRtcManager) (signals : list WebRtcSignal)
  : WebRtcManager * list Effect :=
  match signals with
  | [] => (m, [])
  | signal :: later =>
      let '(m1, e1, _) := handleSignal role m signal in
      let '(m2, e2) := handleSignals role m1 later in
      (m2, e1 ++ e2)
  end.

(** The connection once [addIceCandidate] has been called on it for each
    candidate in turn, the rejected calls included. *)
Definition apply_candidates (connection : Connection) (candidates : list IceCandidate)
  : Connection :=
  fold_left (fun c ice => snd (addIceCandidate c ice)) candidates connection.

(** What an offer goes through after the flush: [createAnswer] and, when
    that resolves, [setLocalDescription]. *)
Definition answer_steps (connection : Connection) : Connection :=
  match createAnswer connection with
  | (Some answer_sdp, c) => snd (setLocalDescription c answer_sdp)
  | (None, c) => c
  end.

Definition after_flush (signal : WebRtcSignal) (connection : Connection) : Connection :=
  match signal with
  | offer _ => answer_steps connection
  | _ => connection
  end.

Definition dispatchMouseEvent (type : string) (x y : JsNum) (button : JsNum) : list Effect :=
  if negb (elementFromPoint x y) then []
  else [dispatchEvent type x y button].

(** [handleControlMessage(rawData)]; [role] and [hostUserId] are what
    [roleProvider()] and [hostUserIdProvider()] return during the call. *)
Definition handleControlMessage (role : option Role) (hostUserId : option UserId)
           (rawData : RawData) : list Effect :=
  match role with
  | Some client =>
      match rawData with
      | data_binary => []
      | data_string text =>
          match JSON_parse text with
          | None => []
          | Some parsed =>
              if negb (isInboundControlMessage parsed) then []
              else if negb (truthy hostUserId)
                      || negb (field_is hostUserId (str (get parsed "senderUserId")))
              then []
              else
                let type := str (get parsed "type") in
                if (type =? "scroll")%string then
                  [scrollBy (num_of (get parsed "deltaX")) (num_of (get parsed "deltaY"))]
                else if (type =? "toggle-camera")%string || (type =? "toggle-mic")%string
                then [onRemoteMediaCommand type]
                else
                  let x := Math_round (times (clamp (num_of (get parsed "x")) zero one)
                                             innerWidth) in
                  let y := Math_round (times (clamp (num_of (get parsed "y")) zero one)
                                             innerHeight) in
                  if (type =? "mousemove")%string then
                    dispatchMouseEvent "mousemove" x y zero
                  else
                    let button := num_of (get parsed "button") in
                    dispatchMouseEvent "mousedown" x y button
                    ++ dispatchMouseEvent "mouseup" x y button
                    ++ dispatchMouseEvent "click" x y button
          end
      end
  | _ => []
  end.

(** *** Renegotiation as the event loop runs it

    [negotiateAsClient] is suspended at its awaits while other calls run.
    An activation that has set [isNegotiating] and has not yet reached its
    [finally] block is an offer in the making; [inFlight] counts them.
    That is all the two flags serialise: the activation ends when the
    offer has been handed to [onSignal] (or an awaited call has
    rejected), and nothing in it waits for the answer of the peer.  The
    two awaits of the [try] block are taken together: nothing the manager
    holds changes between them. *)

Record Endpoint : Type := mkEndpoint {
  manager : WebRtcManager;
  inFlight : nat;
  trace : list Effect
}.

(** How the awaited calls of an activation settle: [createOffer] rejects, or it
    resolves to an offer with the given [sdp] and [setLocalDescription]
    resolves or rejects. *)
Inductive OfferResult : Type :=
| offer_rejected
| offer_created (sdp : option string) (applied : bool).

Inductive NegotiationEvent : Type :=
| negotiate_called
| offer_settled (result : OfferResult)
| connection_closed (preserveLocalStreams : bool).

Definition set_flags (m : WebRtcManager) (negotiating queued : bool) : WebRtcManager :=
  mkManager (peerConnection m) (controlChannel m) (pendingIceCandidates m)
            negotiating queued.

(** [negotiateAsClient()] up to its first await. *)
Definition negotiateAsClient_enter (role : option Role) (e : Endpoint) : Endpoint :=
  match role with
  | Some client =>
      let '(m1, _, created) := ensurePeerConnection role (manager e) in
      if isNegotiating m1 then
        mkEndpoint (set_flags m1 (isNegotiating m1) true) (inFlight e)
                   (trace e ++ created)
      else
        mkEndpoint (set_flags m1 true (hasQueuedRenegotiation m1)) (S (inFlight e))
                   (trace e ++ created ++ [call_createOffer])
  | _ => e
  end.

(** The rest of the [try] block of a suspended activation. *)
Definition offer_effects (result : OfferResult) : list Effect :=
  match result with
  | offer_rejected => []
  | offer_created sdp applied =>
      call_setLocalDescription sdp
      :: (if applied
          then match sdp with
               | Some text => if truthy_string text then [onSignal (offer text)] else []
               | None => []
               end
          else [])
  end.

(** A suspended activation resumes, finishes its [try] block and runs its
    [finally] block, which may call [negotiateAsClient] again. *)
Definition negotiateAsClient_resume (role : option Role) (e : Endpoint)
           (result : OfferResult) : Endpoint :=
  let m := manager e in
  let e1 := mkEndpoint (set_flags m false (hasQueuedRenegotiation m))
                       (pred (inFlight e)) (trace e ++ offer_effects result) in
  if hasQueuedRenegotiation m then
    negotiateAsClient_enter role
      (mkEndpoint (set_flags (manager e1) false false) (inFlight e1) (trace e1))
  else e1.

(** One event of the endpoint, [role] being what [roleProvider()]
    returns while it is handled. *)
Definition endpoint_step (e : Endpoint) (role : option Role) (ev : NegotiationEvent)
  : Endpoint :=
  match ev with
  | negotiate_called => negotiateAsClient_enter role e
  | offer_settled result =>
      match inFlight e with
      | O => e
      | S _ => negotiateAsClient_resume role e result
      end
  | connection_closed preserve =>
      let '(m1, closed) := closePeerConnection preserve (manager e) in
      mkEndpoint m1 (inFlight e) (trace e ++ closed)
  end.

Fixpoint endpoint_run (e : Endpoint) (events : list (option Role * NegotiationEvent))
  : Endpoint :=
  match events with
  | [] => e
  | (role, ev) :: later => endpoint_run (endpoint_step e role ev) later
  end.

Definition endpoint_initial : Endpoint := mkEndpoint fresh 0 [].

Definition is_createOffer (effect : Effect) : bool :=
  match effect with call_createOffer => true | _ => false end.

(** The number of [createOffer] calls the endpoint has made. *)
Definition offers_started (e : Endpoint) : nat :=
  List.length (filter is_createOffer (trace e)).

Definition is_close_event (ev : option Role * NegotiationEvent) : bool :=
  match snd ev with connection_closed _ => true | _ => false end.

(** Every [closePeerConnection] of the sequence comes while no offer is
    in the making. *)
Fixpoint closes_when_idle (e : Endpoint) (events : list (option Role * NegotiationEvent))
  : bool :=
  match events with
  | [] => true
  | (role, ev) :: later =>
      (if is_close_event (role, ev) then Nat.eqb (inFlight e) 0 else true)
      && closes_when_idle (endpoint_step e role ev) later
  end.

(** The flags agree with the suspended activations: while
    [isNegotiating] is set exactly one offer is in the making; otherwise
    none is, and no request is recorded. *)
Definition steady (e : Endpoint) : Prop :=
  if isNegotiating (manager e) then inFlight e = 1
  else inFlight e = 0 /\ hasQueuedRenegotiation (manager e) = false.

End Manager.

End WebRtc.

(** ** Predicates the properties are stated with *)

Module Spec.

Import MemoryStore Gateway.

(** The three room invariants, "present" being what the handlers test:
    the field holds a non-empty string. *)
Definition invariant1 (room : Room) : bool :=
  negb (truthy (clientUserId room) && field_is (clientUserId room) (hostUserId room)).

Definition invariant2 (room : Room) : bool :=
  negb (truthy (clientSocketId room) && negb (truthy (clientUserId room))).

Definition invariant3 (room : Room) : bool :=
  negb (truthy (clientSocketId room) && truthy (hostSocketId room)
        && field_eqb (clientSocketId room) (hostSocketId room)).

Definition room_invariants (room : Room) : bool :=
  invariant1 room && invariant2 room && invariant3 room.

Definition registry_invariants (g : Gateway) : bool :=
  forallb (fun entry => room_invariants (snd entry)) (rooms g).

(** An event that may change what socket [socketId] is bound to: a
    well-formed [identify] on it, or its disconnection. *)
Definition rebinding_event (socketId other : SocketId) (ev : Event) : bool :=
  (other =? socketId)%string
  && match ev with
     | EvIdentify payload => isIdentifyPayload payload
     | EvDisconnect => true
     | _ => false
     end.

(** The roles in which a room names a user. *)
Definition roles_of (userId : UserId) (room : Room) : list Role :=
  (if (hostUserId room =? userId)%string then [host] else [])
  ++ (if field_is (clientUserId room) userId then [client] else []).

(** Every (room, role) in which the registry names the user. *)
Fixpoint bindings (userId : UserId) (rooms : RoomMap) : list (RoomId * Role) :=
  match rooms with
  | [] => []
  | (k, room) :: rest => map (pair k) (roles_of userId room) ++ bindings userId rest
  end.

(** [rejoin-room] arriving on a socket that is bound to [userId]. *)
Definition rejoin_by (userId : UserId) (g : Gateway) (socketId : SocketId) (ev : Event)
  : bool :=
  match ev with
  | EvRejoinRoom _ => connected g socketId && field_is (getUserId g socketId) userId
  | _ => false
  end.

(** No event of the sequence is a [rejoin-room] by [userId]. *)
Fixpoint no_rejoin_by (userId : UserId) (g : Gateway) (events : list (SocketId * Event))
  : bool :=
  match events with
  | [] => true
  | (socketId, ev) :: later =>
      negb (rejoin_by userId g socketId ev)
      && no_rejoin_by userId (fst (step g socketId ev)) later
  end.

(** In how many roles a room names the user, and the sum over the
    registry. *)
Definition weight (userId : UserId) (room : Room) : nat :=
  List.length (roles_of userId room).

Fixpoint total (userId : UserId) (rooms : RoomMap) : nat :=
  match rooms with
  | [] => 0
  | (_, room) :: rest => weight userId room + total userId rest
  end.

(** Keys are distinct and every room is stored under its own code. *)
Definition well_keyed (rooms : RoomMap) : Prop :=
  NoDup (map fst rooms) /\ Forall (fun entry => id (snd entry) = fst entry) rooms.

(** A mutation of a room that keeps its code and its host and either
    keeps its recorded client or records someone other than [userId]. *)
Definition calm (userId : UserId) (room room' : Room) : Prop :=
  id room' = id room
  /\ hostUserId room' = hostUserId room
  /\ (clientUserId room' = clientUserId room \/ clientUserId room' <> Some userId).

(** The registry is unchanged, or one stored room underwent a calm
    mutation. *)
Definition benign (userId : UserId) (rooms rooms' : RoomMap) : Prop :=
  rooms' = rooms
  \/ exists k room room',
      rooms' = put k room' rooms /\ getRoom rooms k = Some room /\ calm userId room room'.

End Spec.

(** ** Concrete sessions used as test inputs *)

Module Scenario.

Import Gateway.

Definition host_user : UserId := "host-user-0001".
Definition client_user : UserId := "client-user-0002".
Definition other_user : UserId := "other-user-0003".
Definition code : RoomId := "482913".

Definition identify_as (userId : UserId) : Event :=
  EvIdentify (JsObject [("userId", JsString userId)]).

Definition room_payload (roomId : RoomId) : JsValue :=
  JsObject [("roomId", JsString roomId)].

Definition offer_payload (roomId : RoomId) : JsValue :=
  JsObject [("roomId", JsString roomId);
            ("signal", JsObject [("type", JsString "offer"); ("sdp", JsString "v=0")])].

(** The host creates room 482913 on socket [s1]. *)
Definition hosted : Gateway :=
  run initial [("s1", EvConnection); ("s1", identify_as host_user);
               ("s1", EvRoomCreate [482913%N])].

(** The client joins it on socket [s2]. *)
Definition paired : Gateway :=
  run hosted [("s2", EvConnection); ("s2", identify_as client_user);
              ("s2", EvRoomJoin (room_payload code))].

(** The client's socket drops; another user connects and identifies. *)
Definition client_offline : Gateway :=
  run paired [("s2", EvDisconnect); ("s3", EvConnection); ("s3", identify_as other_user)].

(** The client comes back on a new socket [s3] while [s2] is still open:
    identifying restores the session onto [s3]. *)
Definition client_superseded : Gateway :=
  run paired [("s3", EvConnection); ("s3", identify_as client_user)].

(** The host's own socket identifies again, as another user. *)
Definition host_socket_reidentified : Gateway :=
  run hosted [("s1", identify_as other_user)].

Definition active_payload (roomId : RoomId) (active : bool) : JsValue :=
  JsObject [("roomId", JsString roomId); ("active", JsBool active)].

(** Control and camera are reported active; then the client's socket
    identifies again, as a user that is in no room. *)
Definition client_socket_reidentified : Gateway :=
  run paired [("s1", EvControlStatus (active_payload code true));
              ("s2", EvCameraState (active_payload code true));
              ("s2", identify_as other_user)].

Definition rejoin_payload (roomId : RoomId) (role : string) : JsValue :=
  JsObject [("roomId", JsString roomId); ("role", JsString role)].

(** A session in which the host creates a room twice, tries to join it,
    drops and comes back, while a client joins, and rejoins. *)
Definition busy_session : list (SocketId * Event) :=
  [("s1", EvConnection); ("s1", identify_as host_user); ("s1", EvRoomCreate [482913%N]);
   ("s2", EvConnection); ("s2", identify_as client_user);
   ("s2", EvRoomJoin (room_payload code));
   ("s1", EvRoomCreate [17%N]); ("s1", EvRoomJoin (room_payload code));
   ("s1", EvDisconnect);
   ("s4", EvConnection); ("s4", identify_as host_user);
   ("s2", EvRejoinRoom (rejoin_payload code "client"));
   ("s4", EvRoomCreate [482913%N; 5%N])].

End Scenario.

(** ** A small browser to run the controller on *)

Module TestBrowser.

Import WebRtc.

Record TestConnection : Type := mkTestConnection {
  remote : option (string * string);
  added : list IceCandidate
}.

(** A candidate with an empty candidate line is refused. *)
Definition test_addIceCandidate (c : TestConnection) (ice : IceCandidate)
  : bool * TestConnection :=
  if truthy_string (candidate ice)
  then (true, mkTestConnection (remote c) (added c ++ [ice]))
  else (false, c).

Definition click_from (sender : UserId) : JsValue :=
  JsObject [("type", JsString "click"); ("senderUserId", JsString sender);
            ("x", JsNumber (NumFinite 1 (-1))); ("y", JsNumber (NumFinite 1 (-2)));
            ("button", JsNumber (NumFinite 0 0))].

(** Two message texts are understood; everything else fails to parse. *)
Definition test_parse (text : string) : option JsValue :=
  if (text =? "click from the host")%string then Some (click_from "host-user-0001")
  else if (text =? "click from an intruder")%string then Some (click_from "intruder-0009")
  else None.

(** Arithmetic on the finite values, exact on [significand * 2 ^ exponent]
    (the rounding of doubles is left out); anything else gives NaN. *)
Definition dyadic_leb (a b : JsNum) : option bool :=
  match a, b with
  | NumFinite sa ea, NumFinite sb eb =>
      let e := Z.min ea eb in
      Some (sa * 2 ^ (ea - e) <=? sb * 2 ^ (eb - e))%Z
  | _, _ => None
  end.

Definition dyadic_min (a b : JsNum) : JsNum :=
  match dyadic_leb a b with
  | Some true => a
  | Some false => b
  | None => NumNaN
  end.

Definition dyadic_max (a b : JsNum) : JsNum :=
  match dyadic_leb a b with
  | Some true => b
  | Some false => a
  | None => NumNaN
  end.

Definition dyadic_times (a b : JsNum) : JsNum :=
  match a, b with
  | NumFinite sa ea, NumFinite sb eb => NumFinite (sa * sb) (ea + eb)
  | _, _ => NumNaN
  end.

(** [Math.round]: the nearest integer, halves upwards. *)
Definition dyadic_round (a : JsNum) : JsNum :=
  match a with
  | NumFinite s e =>
      if (0 <=? e)%Z then NumFinite (s * 2 ^ e) 0
      else NumFinite ((2 * s + 2 ^ (- e)) / 2 ^ (1 - e)) 0
  | _ => NumNaN
  end.

Definition test_browser : Browser := {|
  Connection := TestConnection;
  newConnection := mkTestConnection None [];
  remoteDescription := fun c => match remote c with Some _ => true | None => false end;
  setRemoteDescription := fun c type sdp => (true, mkTestConnection (Some (type, sdp)) (added c));
  addIceCandidate := test_addIceCandidate;
  createAnswer := fun c => (Some (Some "answer"), c);
  setLocalDescription := fun c sdp => (true, c);
  createDataChannel := fun c label => c;
  JSON_parse := test_parse;
  Math_min := dyadic_min;
  Math_max := dyadic_max;
  Math_round := dyadic_round;
  times := dyadic_times;
  innerWidth := NumFinite 1280 0;
  innerHeight := NumFinite 720 0;
  elementFromPoint := fun x y => true
|}.

Definition ice (line : string) : IceCandidate := mkIceCandidate line None None None.

(** The client makes an offer and sends it; the connection is rebuilt;
    the client starts on another offer, which is still in the making. *)
Definition second_offer_pending : list (option Role * NegotiationEvent) :=
  [(Some client, negotiate_called);
   (Some client, offer_settled (offer_created (Some "o1") true));
   (Some client, connection_closed true);
   (Some host, negotiate_called);
   (Some client, negotiate_called)].

End TestBrowser.

(** ** Reading a room code back *)

Module Decimal.

(** The number a string of decimal digits denotes, most significant
    digit first. *)
Definition digit_value (c : ascii) : N := N_of_ascii c - 48.

Definition decimal (l : list ascii) : N :=
  fold_left (fun acc c => 10 * acc + digit_value c)%N l 0%N.

Definition code_value (roomId : RoomId) : N := decimal (list_ascii_of_string roomId).

End Decimal.

(** ** Room conditions kept along every run *)

Module Conditions.

(** Invariants 1 and 2: the recorded client is not the host, and a
    client socket comes with a recorded client. *)
Definition identity_sound (room : Room) : bool :=
  Spec.invariant1 room && Spec.invariant2 room.

(** An activity flag is set only while a client socket is registered. *)
Definition flags_backed (room : Room) : bool :=
  negb (controlActive room || cameraActive room)
  || match clientSocketId room with Some _ => true | None => false end.

(** Both conditions together, as the handlers keep them. *)
Definition kept (room : Room) : bool := identity_sound room && flags_backed room.

Definition all_rooms (p : Room -> bool) (g : Gateway.Gateway) : bool :=
  forallb (fun entry => p (snd entry)) (Gateway.rooms g).

(** The events whose handlers call [ensureIdentified]. *)
Definition needs_identity (ev : Gateway.Event) : bool :=
  match ev with
  | Gateway.EvConnection | Gateway.EvIdentify _ | Gateway.EvDisconnect => false
  | _ => true
  end.

End Conditions.

(** * Properties *)

Ltac destruct_matches :=
  repeat match goal with
         | |- context [match ?x with _ => _ end] => destruct x eqn:?; simpl
         end.

(** ** Registry and normalization lemmas *)

Section GatewayFacts.

Import MemoryStore Gateway.

Lemma normalize_id (room : Room) : id (normalizeRoomState room) = id room.
Proof.
  unfold normalizeRoomState; cbv zeta.
  repeat match goal with
         | |- context [if ?b then _ else _] => destruct b
         end; reflexivity.
Qed.

Lemma normalize_hostUserId (room : Room) :
  hostUserId (normalizeRoomState room) = hostUserId room.
Proof.
  unfold normalizeRoomState; cbv zeta.
  repeat match goal with
         | |- context [if ?b then _ else _] => destruct b
         end; reflexivity.
Qed.

Lemma normalize_hostSocketId (room : Room) :
  hostSocketId (normalizeRoomState room) = hostSocketId room.
Proof.
  unfold normalizeRoomState; cbv zeta.
  repeat match goal with
         | |- context [if ?b then _ else _] => destruct b
         end; reflexivity.
Qed.

(** Normalization keeps the recorded client or removes it. *)
Lemma normalize_clientUserId (room : Room) :
  clientUserId (normalizeRoomState room)
  = if truthy (clientUserId room) && field_is (clientUserId room) (hostUserId room)
    then None else clientUserId room.
Proof.
  unfold normalizeRoomState; cbv zeta.
  repeat match goal with
         | |- context [if ?b then _ else _] => destruct b
         end; reflexivity.
Qed.

Lemma normalize_clientSocketId (room : Room) :
  clientSocketId (normalizeRoomState room) = clientSocketId room
  \/ clientSocketId (normalizeRoomState room) = None.
Proof.
  unfold normalizeRoomState; cbv zeta.
  repeat match goal with
         | |- context [if ?b then _ else _] => destruct b
         end; simpl; auto.
Qed.

Lemma field_is_true (field : option string) (s : string) :
  field_is field s = true <-> field = Some s.
Proof.
  destruct field as [x|]; simpl.
  - rewrite String.eqb_eq. split; [intros ->; reflexivity | intros [= ->]; reflexivity].
  - split; discriminate.
Qed.

Lemma getUserId_connected (g : Gateway) (socketId : SocketId) (userId : UserId) :
  getUserId g socketId = Some userId -> connected g socketId = true.
Proof.
  unfold getUserId, connected. destruct (find_socket (sockets g) socketId); [reflexivity | discriminate].
Qed.

(** A role resolved on the stored room, and a socket that is not the
    registered one for it, stay so once the room is normalized. *)
Lemma stale_after_normalize (room : Room) (userId : UserId) (role : Role) (socketId : SocketId) :
  roleOfUserInRoom room userId = Some role ->
  isCurrentSocketForRole room role socketId = false ->
  roleOfUserInRoom (normalizeRoomState room) userId = Some role
  /\ isCurrentSocketForRole (normalizeRoomState room) role socketId = false.
Proof.
  unfold roleOfUserInRoom, isCurrentSocketForRole.
  rewrite normalize_hostUserId, normalize_hostSocketId, normalize_clientUserId.
  destruct (hostUserId room =? userId)%string eqn:Hhost.
  - intros [= <-] Hstale. split; [reflexivity | exact Hstale].
  - destruct (field_is (clientUserId room) userId) eqn:Hclient; [| discriminate].
    intros [= <-] Hstale.
    apply field_is_true in Hclient. rewrite Hclient. simpl.
    rewrite String.eqb_sym, Hhost, andb_false_r. simpl. rewrite String.eqb_refl.
    split; [reflexivity |].
    destruct (normalize_clientSocketId room) as [-> | ->]; [exact Hstale | reflexivity].
Qed.

Lemma getRoom_put_same (rooms : RoomMap) (roomId : RoomId) (old room : Room) :
  getRoom rooms roomId = Some old -> getRoom (put roomId room rooms) roomId = Some room.
Proof.
  induction rooms as [| [k r] rest IH]; simpl; [discriminate |].
  destruct (k =? roomId)%string eqn:Hk; simpl; rewrite Hk; auto.
Qed.

Lemma put_put (rooms : RoomMap) (roomId : RoomId) (room1 room2 : Room) :
  put roomId room2 (put roomId room1 rooms) = put roomId room2 rooms.
Proof.
  induction rooms as [| [k r] rest IH]; simpl; [reflexivity |].
  destruct (k =? roomId)%string eqn:Hk; simpl; rewrite Hk; [reflexivity | now rewrite IH].
Qed.

Lemma ensureIdentified_truthy (g : Gateway) (socketId : SocketId) (userId : UserId) :
  ensureIdentified g socketId = Some userId ->
  getUserId g socketId = Some userId /\ truthy_string userId = true.
Proof.
  unfold ensureIdentified. destruct (getUserId g socketId) as [u |]; [| discriminate].
  destruct (truthy_string u) eqn:Hu; [| discriminate].
  intros [= <-]. auto.
Qed.

Lemma find_user_none_entry (rooms : RoomMap) (userId : UserId) (k : RoomId) (room : Room) :
  findRoomByUserId rooms userId = None -> In (k, room) rooms ->
  (hostUserId room =? userId)%string = false
  /\ field_is (clientUserId room) userId = false.
Proof.
  induction rooms as [| [k' r] rest IH]; simpl; [contradiction |].
  destruct (hostUserId r =? userId)%string eqn:Hh; [discriminate |].
  destruct (field_is (clientUserId r) userId) eqn:Hc; [discriminate |].
  intros Hnone [[= <- <-] | Hin]; auto.
Qed.

Lemma find_user_none_put (rooms : RoomMap) (userId : UserId) (k : RoomId) (room : Room) :
  findRoomByUserId rooms userId = None ->
  (hostUserId room =? userId)%string = false ->
  field_is (clientUserId room) userId = false ->
  findRoomByUserId (put k room rooms) userId = None.
Proof.
  intros Hnone Hh Hc. induction rooms as [| [k' r] rest IH]; simpl in *; [reflexivity |].
  destruct (hostUserId r =? userId)%string eqn:Hh'; [discriminate |].
  destruct (field_is (clientUserId r) userId) eqn:Hc'; [discriminate |].
  destruct (k' =? k)%string; simpl.
  - now rewrite Hh, Hc.
  - rewrite Hh', Hc'. auto.
Qed.

Lemma getRoom_entry (rooms : RoomMap) (k : RoomId) (room : Room) :
  getRoom rooms k = Some room -> In (k, room) rooms.
Proof.
  induction rooms as [| [k' r] rest IH]; simpl; [discriminate |].
  destruct (k' =? k)%string eqn:Hk.
  - apply String.eqb_eq in Hk. intros [= ->]. left. now subst.
  - auto.
Qed.

End GatewayFacts.

(** ** Signalling relay *)

Section Relay.

Import MemoryStore Gateway Scenario.

(** C5: a [webrtc:signal] event from a socket that is not the one
    registered for the caller's role in the room emits a single
    [room:error] to the caller and relays nothing, whatever the payload,
    although the caller's identity resolves to a role of the room; for a
    well-formed payload from an identified caller the message is the
    stale-socket rejection. *)
Theorem stale_socket_signal_rejected
        (g : Gateway) (socketId : SocketId) (payload : JsValue)
        (userId : UserId) (room : Room) (role : Role) :
  getUserId g socketId = Some userId ->
  getRoom (rooms g) (str (get payload "roomId")) = Some room ->
  roleOfUserInRoom room userId = Some role ->
  isCurrentSocketForRole room role socketId = false ->
  exists message,
    emitted g socketId (EvWebrtcSignal payload) = [(socketId, room_error message)]
    /\ (isWebRtcSignalPayload payload = true -> truthy_string userId = true ->
        message = "Stale socket signaling rejected.").
Proof.
  intros Huser Hroom Hrole Hstale.
  destruct (stale_after_normalize room userId role socketId Hrole Hstale) as [Hrole' Hstale'].
  unfold emitted, step. rewrite (getUserId_connected _ _ _ Huser). simpl.
  unfold on_webrtc_signal.
  destruct (isWebRtcSignalPayload payload); simpl.
  - unfold ensureIdentified, identify_first. rewrite Huser.
    destruct (truthy_string userId); simpl.
    + rewrite Hroom, Hrole', Hstale'. simpl. eexists; split; [reflexivity | auto].
    + eexists; split; [reflexivity | discriminate].
  - eexists; split; [reflexivity | discriminate].
Qed.

Lemma stale_socket_signal_rejected_witness :
  exists message,
    emitted client_superseded "s2" (EvWebrtcSignal (offer_payload code))
    = [("s2", room_error message)]
    /\ (isWebRtcSignalPayload (offer_payload code) = true ->
        truthy_string client_user = true ->
        message = "Stale socket signaling rejected.").
Proof.
  apply (stale_socket_signal_rejected
           client_superseded "s2" (offer_payload code) client_user
           (mkRoom code host_user (Some client_user) (Some "s1") (Some "s3") false false)
           client).
  - reflexivity.
  - reflexivity.
  - reflexivity.
  - reflexivity.
Defined.

End Relay.

(** ** The room invariants *)

Section Invariants.

Import MemoryStore Gateway Scenario Spec.

(** Normalization establishes the three invariants on any room. *)
Lemma normalize_establishes_invariants (room : Room) :
  room_invariants (normalizeRoomState room) = true.
Proof.
  destruct room as [i hu [cu |] [hs |] [cs |] ca cam];
    unfold room_invariants, invariant1, invariant2, invariant3,
      normalizeRoomState, truthy, field_is, field_eqb; cbv zeta; simpl;
    repeat match goal with
      | |- context [truthy_string ?s] => destruct (truthy_string s) eqn:?; simpl
      | |- context [(?a =? ?b)%string] => destruct (a =? b)%string eqn:?; simpl
      end; try reflexivity; congruence.
Qed.

(** Whenever normalization changes the client binding, both activity
    flags are false afterwards. *)
Lemma normalize_resets_flags (room : Room) :
  clientUserId (normalizeRoomState room) <> clientUserId room
  \/ clientSocketId (normalizeRoomState room) <> clientSocketId room ->
  controlActive (normalizeRoomState room) = false
  /\ cameraActive (normalizeRoomState room) = false.
Proof.
  destruct room as [i hu [cu |] [hs |] [cs |] ca cam];
    unfold normalizeRoomState, truthy, field_is, field_eqb; cbv zeta; simpl;
    repeat match goal with
      | |- context [truthy_string ?s] => destruct (truthy_string s) eqn:?; simpl
      | |- context [(?a =? ?b)%string] => destruct (a =? b)%string eqn:?; simpl
      end;
    auto; intros [Hne | Hne]; exfalso; apply Hne; reflexivity.
Qed.

(** [restoreSession] normalizes after attaching the socket, so the room
    it leaves satisfies the invariants. *)
Lemma restoreSession_establishes_invariants g socketId room role :
  room_invariants (fst (restoreSession g socketId room role)) = true.
Proof. apply normalize_establishes_invariants. Qed.

(** C1 at the failing input: every room satisfies the invariants, the
    socket registered as host of room 482913 is by now identified as
    another user, and its [room:join] on that room is accepted: the
    handler binds the client slot without normalizing afterwards, and the
    room is left with [hostSocketId] equal to [clientSocketId]. *)
Theorem join_from_host_socket_breaks_invariant3 :
  registry_invariants host_socket_reidentified = true
  /\ getUserId host_socket_reidentified "s1" = Some other_user
  /\ getRoom (rooms (fst (step host_socket_reidentified "s1"
                               (EvRoomJoin (room_payload code))))) code
     = Some (mkRoom code host_user (Some other_user) (Some "s1") (Some "s1") false false)
  /\ invariant3 (mkRoom code host_user (Some other_user) (Some "s1") (Some "s1")
                        false false) = false
  /\ registry_invariants (fst (step host_socket_reidentified "s1"
                                    (EvRoomJoin (room_payload code)))) = false.
Proof. repeat split; reflexivity. Qed.

End Invariants.

(** ** Joining a room *)

Section Joining.

Import MemoryStore Gateway Scenario.

(** C2, as the code has it: a [room:join] by an identified user on a room
    that, once normalized, records a different client whose socket is
    still registered is answered with a single [room:error] carrying one
    of the three rejection reasons, and the room (normalized) keeps its
    client binding; for a user whom no room names, the reason is that the
    room already has a different client. *)
Theorem join_rejected_while_other_client_attached
        (g : Gateway) (socketId : SocketId) (payload : JsValue)
        (userId clientId : UserId) (stored : Room) :
  isRoomJoinPayload payload = true ->
  ensureIdentified g socketId = Some userId ->
  getRoom (rooms g) (str (get payload "roomId")) = Some stored ->
  clientUserId (normalizeRoomState stored) = Some clientId ->
  clientId <> userId ->
  truthy_string clientId = true ->
  truthy (clientSocketId (normalizeRoomState stored)) = true ->
  exists message,
    In message ["Already attached to another room.";
                "Host cannot join as client.";
                "Room already has a different client."]
    /\ emitted g socketId (EvRoomJoin payload) = [(socketId, room_error message)]
    /\ getRoom (rooms (fst (step g socketId (EvRoomJoin payload))))
               (str (get payload "roomId"))
       = Some (normalizeRoomState stored)
    /\ (findRoomByUserId (rooms g) userId = None ->
        message = "Room already has a different client.").
Proof.
  intros Hpayload Huser Hroom Hclient Hother Hid Hsocket.
  assert (Hconn : connected g socketId = true).
  { unfold ensureIdentified in Huser.
    destruct (getUserId g socketId) eqn:E; [| discriminate].
    eapply getUserId_connected; eauto. }
  unfold emitted, step. rewrite Hconn. simpl.
  unfold on_room_join. rewrite Hpayload, Huser, Hroom. simpl.
  set (room := normalizeRoomState stored) in *.
  set (g1 := store g (str (get payload "roomId")) room).
  assert (Hstored : getRoom (rooms g1) (str (get payload "roomId")) = Some room).
  { unfold g1, store, with_rooms; simpl. eapply getRoom_put_same; eauto. }
  assert (Hne : (clientId =? userId)%string = false)
    by (apply String.eqb_neq; exact Hother).
  assert (Hfree : findRoomByUserId (rooms g) userId = None ->
                  findRoomByUserId (rooms g1) userId = None
                  /\ (hostUserId room =? userId)%string = false).
  { intros Hnone.
    destruct (find_user_none_entry _ _ _ _ Hnone (getRoom_entry _ _ _ Hroom)) as [Hh _].
    assert (Hh' : (hostUserId room =? userId)%string = false)
      by (unfold room; rewrite normalize_hostUserId; exact Hh).
    split; [| exact Hh'].
    unfold g1, store, with_rooms; simpl.
    apply find_user_none_put; [exact Hnone | exact Hh' |].
    rewrite Hclient. simpl. exact Hne. }
  change (put (str (get payload "roomId")) room (rooms g)) with (rooms g1).
  destruct (findRoomByUserId (rooms g1) userId) as [[[k' existing] role] |] eqn:Hfind.
  - destruct (negb (id existing =? id room)%string).
    + eexists; simpl; split; [left; reflexivity |].
      split; [reflexivity | split; [exact Hstored |]].
      intros Hnone. destruct (Hfree Hnone) as [Habsurd _]. discriminate Habsurd.
    + destruct (hostUserId room =? userId)%string eqn:Hhost.
      * eexists; simpl; split; [right; left; reflexivity |].
        split; [reflexivity | split; [exact Hstored |]].
        intros Hnone. destruct (Hfree Hnone) as [Habsurd _]. discriminate Habsurd.
      * rewrite Hclient, Hsocket. simpl. rewrite Hid, Hne. simpl.
        eexists; split; [right; right; left; reflexivity |].
        split; [reflexivity | split; [exact Hstored | reflexivity]].
  - destruct (hostUserId room =? userId)%string eqn:Hhost.
    + eexists; simpl; split; [right; left; reflexivity |].
      split; [reflexivity | split; [exact Hstored |]].
      intros Hnone. destruct (Hfree Hnone) as [_ Habsurd]. discriminate Habsurd.
    + rewrite Hclient, Hsocket. simpl. rewrite Hid, Hne. simpl.
      eexists; split; [right; right; left; reflexivity |].
      split; [reflexivity | split; [exact Hstored | reflexivity]].
Qed.

Lemma join_rejected_while_other_client_attached_witness :
  exists message,
    In message ["Already attached to another room.";
                "Host cannot join as client.";
                "Room already has a different client."]
    /\ emitted (run paired [("s3", EvConnection); ("s3", identify_as other_user)])
               "s3" (EvRoomJoin (room_payload code))
       = [("s3", room_error message)]
    /\ getRoom (rooms (fst (step (run paired [("s3", EvConnection);
                                              ("s3", identify_as other_user)])
                                 "s3" (EvRoomJoin (room_payload code)))))
               (str (get (room_payload code) "roomId"))
       = Some (normalizeRoomState
                 (mkRoom code host_user (Some client_user) (Some "s1") (Some "s2")
                         false false))
    /\ (findRoomByUserId
          (rooms (run paired [("s3", EvConnection); ("s3", identify_as other_user)]))
          other_user = None ->
        message = "Room already has a different client.").
Proof.
  apply (join_rejected_while_other_client_attached
           (run paired [("s3", EvConnection); ("s3", identify_as other_user)])
           "s3" (room_payload code) other_user client_user
           (mkRoom code host_user (Some client_user) (Some "s1") (Some "s2") false false)).
  - reflexivity.
  - reflexivity.
  - reflexivity.
  - reflexivity.
  - discriminate.
  - reflexivity.
  - reflexivity.
Defined.

(** C2, as stated, fails: once the recorded client's socket is gone, a
    [room:join] by a different user is accepted and rebinds the client
    slot to that user. *)
Lemma offline_client_is_replaced :
  getUserId client_offline "s3" = Some other_user
  /\ getRoom (rooms client_offline) code
     = Some (mkRoom code host_user (Some client_user) (Some "s1") None false false)
  /\ getRoom (rooms (fst (step client_offline "s3" (EvRoomJoin (room_payload code))))) code
     = Some (mkRoom code host_user (Some other_user) (Some "s1") (Some "s3") false false)
  /\ (forall message,
        ~ In ("s3", room_error message)
             (emitted client_offline "s3" (EvRoomJoin (room_payload code)))).
Proof.
  repeat split; try reflexivity.
  intros message Hin. vm_compute in Hin.
  repeat destruct Hin as [Hin | Hin]; try discriminate; exact Hin.
Qed.

End Joining.

(** ** Camera requests *)

Section Camera.

Import MemoryStore Gateway Scenario Spec.

Lemma normalize_flags_when_socket_dropped (room : Room) :
  clientSocketId (normalizeRoomState room) <> clientSocketId room ->
  controlActive (normalizeRoomState room) = false
  /\ cameraActive (normalizeRoomState room) = false.
Proof.
  destruct room as [i hu [cu |] [hs |] [cs |] ca cam];
    unfold normalizeRoomState, truthy, field_is, field_eqb; cbv zeta; simpl;
    repeat match goal with
      | |- context [truthy_string ?s] => destruct (truthy_string s) eqn:?; simpl
      | |- context [(?a =? ?b)%string] => destruct (a =? b)%string eqn:?; simpl
      end;
    auto; intros Hne; exfalso; apply Hne; reflexivity.
Qed.

Lemma normalize_clientUserId_kept (room : Room) (userId : UserId) :
  clientUserId (normalizeRoomState room) = Some userId -> clientUserId room = Some userId.
Proof.
  rewrite normalize_clientUserId.
  destruct (truthy (clientUserId room) && field_is (clientUserId room) (hostUserId room));
    [discriminate | auto].
Qed.

Lemma emitRoomUpdate_only_updates (room : Room) (target : SocketId) (message : Outbound) :
  In (target, message) (emitRoomUpdate room) -> message = room_update room.
Proof.
  unfold emitRoomUpdate. intros Hin. apply in_app_or in Hin.
  destruct Hin as [Hin | Hin].
  - destruct (truthy (hostSocketId room)); [| contradiction].
    destruct (hostSocketId room); [| contradiction].
    destruct Hin as [[= _ <-] | []]. reflexivity.
  - destruct (truthy (clientSocketId room)); [| contradiction].
    destruct (clientSocketId room); [| contradiction].
    destruct Hin as [[= _ <-] | []]. reflexivity.
Qed.

(** C9, as the code has it: a [camera:request] from the socket
    registered as host of a room whose registered client socket does not
    belong to a connected socket identified as the recorded client (and
    not as the host) removes the room's client socket and leaves both
    activity flags false, answers the caller with a [room:error], and
    forwards no [camera:request]; the recorded client identity is not
    cleared: it stays as normalization left it. *)
Theorem camera_request_clears_invalid_client
        (g : Gateway) (socketId : SocketId) (payload : JsValue)
        (userId : UserId) (stored : Room) (clientSocket : SocketId) :
  isCameraRequestPayload payload = true ->
  ensureIdentified g socketId = Some userId ->
  getRoom (rooms g) (str (get payload "roomId")) = Some stored ->
  hostUserId stored = userId ->
  hostSocketId stored = Some socketId ->
  clientSocketId stored = Some clientSocket ->
  truthy_string clientSocket = true ->
  (forall target,
      socketUserIdBySocketId g clientSocket = Some target ->
      clientUserId stored = Some target ->
      target = hostUserId stored) ->
  let g' := fst (step g socketId (EvCameraRequest payload)) in
  let out := emitted g socketId (EvCameraRequest payload) in
  (exists room,
      getRoom (rooms g') (str (get payload "roomId")) = Some room
      /\ clientSocketId room = None
      /\ controlActive room = false
      /\ cameraActive room = false
      /\ clientUserId room = clientUserId (normalizeRoomState stored))
  /\ (exists message, In (socketId, room_error message) out)
  /\ (forall target roomId hostId, ~ In (target, camera_request roomId hostId) out).
Proof.
  intros Hpayload Huser Hroom Hhost Hhs Hcs Hcst Hinvalid g' out.
  assert (Hconn : connected g socketId = true).
  { unfold ensureIdentified in Huser.
    destruct (getUserId g socketId) eqn:E; [| discriminate].
    eapply getUserId_connected; eauto. }
  subst g' out. unfold emitted, step. rewrite Hconn. simpl.
  unfold on_camera_request. rewrite Hpayload, Huser, Hroom. simpl.
  set (room := normalizeRoomState stored).
  set (key := str (get payload "roomId")) in *.
  unfold canUserControlRoom.
  assert (Hh1 : hostUserId room = userId)
    by (unfold room; rewrite normalize_hostUserId; exact Hhost).
  assert (Hh2 : hostSocketId room = Some socketId)
    by (unfold room; rewrite normalize_hostSocketId; exact Hhs).
  rewrite Hh1, Hh2. simpl. rewrite !String.eqb_refl. simpl.
  assert (Hapart : field_is (clientUserId room) userId = false).
  { pose proof (normalize_establishes_invariants stored) as Hinv. fold room in Hinv.
    unfold room_invariants, invariant1 in Hinv.
    apply andb_true_iff in Hinv as [Hinv _]. apply andb_true_iff in Hinv as [Hinv _].
    rewrite Hh1 in Hinv.
    destruct (field_is (clientUserId room) userId) eqn:Hsame; [| reflexivity].
    apply field_is_true in Hsame. rewrite Hsame in Hinv. simpl in Hinv.
    destruct (ensureIdentified_truthy _ _ _ Huser) as [_ Htruthy].
    rewrite Htruthy in Hinv. discriminate Hinv. }
  pose proof (normalize_clientSocketId stored) as Hcases. fold room in Hcases.
  destruct Hcases as [Hkept | Hdropped].
  - rewrite Hkept, Hcs, Hcst. simpl.
    match goal with
    | |- context [if ?b then _ else _] => destruct b eqn:Hcheck
    end.
    + simpl. repeat split.
      * eexists. split; [eapply getRoom_put_same; eapply getRoom_put_same; exact Hroom |].
        rewrite Hapart. simpl. auto.
      * eexists. apply in_or_app. right. left. reflexivity.
      * intros target roomId hostId Hin. apply in_app_or in Hin.
        destruct Hin as [Hin | [Hin | []]]; [| discriminate Hin].
        apply emitRoomUpdate_only_updates in Hin. discriminate Hin.
    + exfalso.
      apply orb_false_iff in Hcheck as [Hcheck Hnothost].
      apply orb_false_iff in Hcheck as [Hcheck Hsame].
      apply orb_false_iff in Hcheck as [Hclient Htarget].
      change (socketUserIdBySocketId (store g key room) clientSocket)
        with (socketUserIdBySocketId g clientSocket) in *.
      destruct (socketUserIdBySocketId g clientSocket) as [target |] eqn:Htu;
        [| discriminate].
      destruct (clientUserId room) as [recorded |] eqn:Hcu; [| discriminate].
      simpl in Hsame, Hnothost. apply negb_false_iff in Hsame.
      apply String.eqb_eq in Hsame. subst recorded.
      apply normalize_clientUserId_kept in Hcu.
      specialize (Hinvalid target eq_refl Hcu).
      rewrite Hhost in Hinvalid. subst target.
      rewrite String.eqb_refl in Hnothost. discriminate.
  - rewrite Hdropped. simpl. repeat split.
    + eexists. split; [eapply getRoom_put_same; exact Hroom |].
      split; [exact Hdropped |].
      assert (Hflags : controlActive room = false /\ cameraActive room = false).
      { apply normalize_flags_when_socket_dropped. fold room.
        rewrite Hdropped, Hcs. discriminate. }
      destruct Hflags. auto.
    + eexists. left. reflexivity.
    + intros target roomId hostId [Hin | []]. discriminate Hin.
Qed.

Lemma camera_request_clears_invalid_client_witness :
  (exists room,
      getRoom (rooms (fst (step client_socket_reidentified "s1"
                                (EvCameraRequest (room_payload code))))) code = Some room
      /\ clientSocketId room = None
      /\ controlActive room = false
      /\ cameraActive room = false
      /\ clientUserId room
         = clientUserId
             (normalizeRoomState
                (mkRoom code host_user (Some client_user) (Some "s1") (Some "s2")
                        true true)))
  /\ (exists message,
        In ("s1", room_error message)
           (emitted client_socket_reidentified "s1" (EvCameraRequest (room_payload code))))
  /\ (forall target roomId hostId,
        ~ In (target, camera_request roomId hostId)
             (emitted client_socket_reidentified "s1"
                      (EvCameraRequest (room_payload code)))).
Proof.
  apply (camera_request_clears_invalid_client
           client_socket_reidentified "s1" (room_payload code) host_user
           (mkRoom code host_user (Some client_user) (Some "s1") (Some "s2") true true)
           "s2").
  - reflexivity.
  - reflexivity.
  - reflexivity.
  - reflexivity.
  - reflexivity.
  - reflexivity.
  - reflexivity.
  - intros target Hsocket Hclient. vm_compute in Hsocket, Hclient. congruence.
Defined.

(** C9, as stated, fails: after the rejected [camera:request] the room
    still records the client's identity, and the registry still resolves
    that user to the room as its client; only the socket is gone. *)
Lemma camera_request_keeps_client_identity :
  getRoom (rooms client_socket_reidentified) code
  = Some (mkRoom code host_user (Some client_user) (Some "s1") (Some "s2") true true)
  /\ socketUserIdBySocketId client_socket_reidentified "s2" = Some other_user
  /\ getRoom (rooms (fst (step client_socket_reidentified "s1"
                                (EvCameraRequest (room_payload code))))) code
     = Some (mkRoom code host_user (Some client_user) (Some "s1") None false false)
  /\ findRoomByUserId (rooms (fst (step client_socket_reidentified "s1"
                                         (EvCameraRequest (room_payload code)))))
                      client_user
     = Some (code, mkRoom code host_user (Some client_user) (Some "s1") None false false,
             client)
  /\ emitted client_socket_reidentified "s1" (EvCameraRequest (room_payload code))
     = [("s1", room_update (mkRoom code host_user (Some client_user) (Some "s1") None
                                   false false));
        ("s1", room_error "No valid connected client available.")].
Proof. repeat split; reflexivity. Qed.

End Camera.

(** ** The identity bound to a connection *)

Section Identity.

Import MemoryStore Gateway Scenario Spec.

Lemma find_socket_set_same table socketId userId data :
  find_socket table socketId = Some data ->
  find_socket (set_socket_userId table socketId userId) socketId = Some (Some userId).
Proof.
  induction table as [| [k d] rest IH]; simpl; [discriminate |].
  destruct (k =? socketId)%string eqn:Hk; simpl; rewrite Hk; auto.
Qed.

Lemma find_socket_set_other table socketId other userId :
  other <> socketId ->
  find_socket (set_socket_userId table other userId) socketId = find_socket table socketId.
Proof.
  intros Hne. induction table as [| [k d] rest IH]; simpl; [reflexivity |].
  destruct (k =? other)%string eqn:Hk; simpl.
  - apply String.eqb_eq in Hk. subst k.
    destruct (other =? socketId)%string eqn:Ho; [| reflexivity].
    apply String.eqb_eq in Ho. congruence.
  - now rewrite IH.
Qed.

Lemma find_socket_remove_other table socketId other :
  other <> socketId ->
  find_socket (remove_socket table other) socketId = find_socket table socketId.
Proof.
  intros Hne. induction table as [| [k d] rest IH]; simpl; [reflexivity |].
  destruct (k =? other)%string eqn:Hk; simpl.
  - apply String.eqb_eq in Hk. subst k.
    destruct (other =? socketId)%string eqn:Ho; [| reflexivity].
    apply String.eqb_eq in Ho. congruence.
  - now rewrite IH.
Qed.

Lemma find_socket_app table socketId data extra :
  find_socket table socketId = Some data ->
  find_socket (table ++ extra) socketId = Some data.
Proof.
  induction table as [| [k d] rest IH]; simpl; [discriminate |].
  destruct (k =? socketId)%string; auto.
Qed.

Lemma on_identify_sockets g socketId payload :
  sockets (fst (on_identify g socketId payload))
  = if isIdentifyPayload payload
    then set_socket_userId (sockets g) socketId (str (get payload "userId"))
    else sockets g.
Proof.
  unfold on_identify. destruct (isIdentifyPayload payload); simpl; [| reflexivity].
  destruct_matches; reflexivity.
Qed.

Lemma handlers_keep_sockets g socketId ev :
  match ev with EvConnection | EvIdentify _ | EvDisconnect => False | _ => True end ->
  sockets (fst (step g socketId ev)) = sockets g.
Proof.
  intros Hev. unfold step.
  destruct ev; try contradiction;
    destruct (connected g socketId); simpl; try reflexivity;
    unfold on_room_create, on_room_join, on_rejoin_room, on_webrtc_signal,
      on_control_status, on_camera_request, on_camera_permission, on_camera_state,
      on_media_kind, identify_first, reject;
    repeat match goal with
           | |- context [match ?x with _ => _ end] => destruct x; cbn [fst snd]
           end; reflexivity.
Qed.

(** C3, as the code has it: on every connection, identified or not,
    each well-formed [identify] binds the user it names, also when
    another user was bound before; every other event, on this or any
    other socket, short of the connection's own disconnection, leaves the
    binding as it was. *)
Theorem identity_follows_latest_identify (g : Gateway) (socketId : SocketId) :
  connected g socketId = true ->
  (forall payload,
      isIdentifyPayload payload = true ->
      getUserId (fst (step g socketId (EvIdentify payload))) socketId
      = Some (str (get payload "userId")))
  /\ (forall other ev,
        rebinding_event socketId other ev = false ->
        getUserId (fst (step g other ev)) socketId = getUserId g socketId).
Proof.
  intros Hconn.
  assert (Hfound : exists data, find_socket (sockets g) socketId = Some data).
  { unfold connected in Hconn.
    destruct (find_socket (sockets g) socketId) as [data |]; [| discriminate].
    now exists data. }
  destruct Hfound as [data Hfound].
  split.
  - intros payload Hvalid. unfold step. rewrite Hconn. simpl.
    unfold getUserId. rewrite on_identify_sockets, Hvalid.
    now rewrite (find_socket_set_same _ _ _ _ Hfound).
  - intros other ev Hquiet. unfold getUserId.
    destruct ev;
      try (rewrite handlers_keep_sockets by exact I; reflexivity).
    + unfold step.
      destruct (connected g other || negb (truthy_string other)); simpl;
        [reflexivity |].
      now rewrite (find_socket_app _ _ _ _ Hfound), Hfound.
    + unfold step. destruct (connected g other); simpl; [| reflexivity].
      rewrite on_identify_sockets.
      unfold rebinding_event in Hquiet.
      destruct (isIdentifyPayload payload); [| reflexivity].
      rewrite andb_true_r in Hquiet. apply String.eqb_neq in Hquiet.
      now rewrite find_socket_set_other by exact Hquiet.
    + unfold step. destruct (connected g other); simpl; [| reflexivity].
      unfold rebinding_event in Hquiet.
      rewrite andb_true_r in Hquiet. apply String.eqb_neq in Hquiet.
      unfold on_disconnect.
      destruct (removeSocket (rooms g) other) as [[[rooms' room] role] |]; simpl;
        now rewrite find_socket_remove_other by exact Hquiet.
Qed.

Lemma identity_follows_latest_identify_witness :
  (forall payload,
      isIdentifyPayload payload = true ->
      getUserId (fst (step (run initial [("s1", EvConnection)]) "s1" (EvIdentify payload)))
                "s1"
      = Some (str (get payload "userId")))
  /\ (forall other ev,
        rebinding_event "s1" other ev = false ->
        getUserId (fst (step (run initial [("s1", EvConnection)]) other ev)) "s1"
        = getUserId (run initial [("s1", EvConnection)]) "s1").
Proof.
  apply (identity_follows_latest_identify (run initial [("s1", EvConnection)]) "s1").
  reflexivity.
Defined.

(** The first [identify] on a fresh connection binds it. *)
Example first_identify_binds :
  getUserId (run initial [("s1", EvConnection)]) "s1" = None
  /\ getUserId (run initial [("s1", EvConnection); ("s1", identify_as host_user)]) "s1"
     = Some host_user.
Proof. split; reflexivity. Qed.

(** C3, as stated, fails: a second [identify] on the same connection,
    naming another user, replaces the binding. *)
Lemma second_identify_rebinds :
  getUserId hosted "s1" = Some host_user
  /\ getUserId (fst (step hosted "s1" (identify_as other_user))) "s1" = Some other_user
  /\ other_user <> host_user.
Proof.
  repeat split; try reflexivity. discriminate.
Qed.

End Identity.

(** ** One room and one role per user *)

Section Bindings.

Import MemoryStore Gateway Scenario Spec.

Variable user : UserId.

Local Abbreviation weight := (Spec.weight user).
Local Abbreviation total := (Spec.total user).

Lemma bindings_total (rooms : RoomMap) : List.length (bindings user rooms) = total rooms.
Proof.
  induction rooms as [| [k room] rest IH]; simpl; [reflexivity |].
  rewrite length_app, length_map, IH. reflexivity.
Qed.

Lemma has_In (rooms : RoomMap) (k : RoomId) :
  has k rooms = true <-> In k (map fst rooms).
Proof.
  induction rooms as [| [k' r] rest IH]; simpl; [split; [discriminate | contradiction] |].
  rewrite orb_true_iff, String.eqb_eq, IH. tauto.
Qed.

Lemma In_getRoom (rooms : RoomMap) (k : RoomId) (room : Room) :
  NoDup (map fst rooms) -> In (k, room) rooms -> getRoom rooms k = Some room.
Proof.
  induction rooms as [| [k' r] rest IH]; simpl; [contradiction |].
  intros Hnodup Hin. inversion Hnodup as [| ? ? Hfresh Hrest]; subst.
  destruct Hin as [[= -> ->] | Hin].
  - now rewrite String.eqb_refl.
  - destruct (k' =? k)%string eqn:Hk; [| auto].
    apply String.eqb_eq in Hk. subst k'. exfalso. apply Hfresh.
    change k with (fst (k, room)). now apply in_map.
Qed.

Lemma well_keyed_id (rooms : RoomMap) (k : RoomId) (room : Room) :
  well_keyed rooms -> In (k, room) rooms -> id room = k.
Proof.
  intros [_ Hids] Hin. rewrite Forall_forall in Hids. exact (Hids _ Hin).
Qed.

Lemma put_keys (rooms : RoomMap) (k : RoomId) (room : Room) :
  map fst (put k room rooms) = map fst rooms.
Proof.
  induction rooms as [| [k' r] rest IH]; simpl; [reflexivity |].
  destruct (k' =? k)%string; simpl; [reflexivity | now rewrite IH].
Qed.

Lemma put_In (rooms : RoomMap) (k : RoomId) (room : Room) (entry : RoomId * Room) :
  In entry (put k room rooms) -> entry = (k, room) \/ In entry rooms.
Proof.
  induction rooms as [| [k' r] rest IH]; simpl; [contradiction |].
  destruct (k' =? k)%string eqn:Hk; simpl.
  - apply String.eqb_eq in Hk. subst k'. intros [<- | Hin]; auto.
  - intros [<- | Hin]; auto. destruct (IH Hin); auto.
Qed.

Lemma well_keyed_put (rooms : RoomMap) (k : RoomId) (old room : Room) :
  well_keyed rooms -> getRoom rooms k = Some old -> id room = id old ->
  well_keyed (put k room rooms).
Proof.
  intros Hwk Hget Hid. pose proof (well_keyed_id _ _ _ Hwk (getRoom_entry _ _ _ Hget)) as Hk.
  destruct Hwk as [Hnodup Hids]. split.
  - now rewrite put_keys.
  - rewrite Forall_forall in *. intros entry Hin.
    apply put_In in Hin. destruct Hin as [-> | Hin]; [simpl; congruence | auto].
Qed.

Lemma total_put (rooms : RoomMap) (k : RoomId) (old room : Room) :
  getRoom rooms k = Some old ->
  total (put k room rooms) + weight old = total rooms + weight room.
Proof.
  induction rooms as [| [k' r] rest IH]; simpl; [discriminate |].
  destruct (k' =? k)%string eqn:Hk; simpl.
  - intros [= ->]. lia.
  - intros Hget. specialize (IH Hget). lia.
Qed.

Lemma total_app (rooms more : RoomMap) : total (rooms ++ more) = total rooms + total more.
Proof.
  induction rooms as [| [k r] rest IH]; simpl; [reflexivity | lia].
Qed.

Lemma find_user_none (rooms : RoomMap) :
  findRoomByUserId rooms user = None -> total rooms = 0.
Proof.
  induction rooms as [| [k r] rest IH]; simpl; [reflexivity |].
  unfold weight, roles_of.
  destruct (hostUserId r =? user)%string; [discriminate |].
  destruct (field_is (clientUserId r) user); [discriminate |].
  intros Hnone. simpl. auto.
Qed.

Lemma find_user_some (rooms : RoomMap) (who : UserId) (k : RoomId) (room : Room) (role : Role) :
  findRoomByUserId rooms who = Some (k, room, role) -> In (k, room) rooms.
Proof.
  induction rooms as [| [k' r] rest IH]; simpl; [discriminate |].
  destruct (hostUserId r =? who)%string; [intros [= -> -> _]; auto |].
  destruct (field_is (clientUserId r) who); [intros [= -> -> _]; auto |].
  auto.
Qed.

Lemma find_user_weight (rooms : RoomMap) (k : RoomId) (room : Room) (role : Role) :
  findRoomByUserId rooms user = Some (k, room, role) -> 1 <= weight room.
Proof.
  induction rooms as [| [k' r] rest IH]; simpl; [discriminate |].
  unfold weight, roles_of.
  destruct (hostUserId r =? user)%string eqn:Hh.
  - intros [= _ <- _]. rewrite Hh. simpl. lia.
  - destruct (field_is (clientUserId r) user) eqn:Hc; [| exact IH].
    intros [= _ <- _]. rewrite Hh, Hc. simpl. lia.
Qed.

Lemma find_socket_some (rooms : RoomMap) (socketId : SocketId) (k : RoomId) (room : Room)
      (role : Role) :
  findRoomBySocketId rooms socketId = Some (k, room, role) -> In (k, room) rooms.
Proof.
  induction rooms as [| [k' r] rest IH]; simpl; [discriminate |].
  destruct (field_is (hostSocketId r) socketId); [intros [= -> -> _]; auto |].
  destruct (field_is (clientSocketId r) socketId); [intros [= -> -> _]; auto |].
  auto.
Qed.

Lemma find_user_getRoom (rooms : RoomMap) (who : UserId) (k : RoomId) (room : Room)
      (role : Role) :
  well_keyed rooms -> findRoomByUserId rooms who = Some (k, room, role) ->
  getRoom rooms k = Some room.
Proof.
  intros [Hnodup _] Hfind. apply In_getRoom; [exact Hnodup |].
  eapply find_user_some; eauto.
Qed.

Lemma find_socket_getRoom (rooms : RoomMap) (socketId : SocketId) (k : RoomId) (room : Room)
      (role : Role) :
  well_keyed rooms -> findRoomBySocketId rooms socketId = Some (k, room, role) ->
  getRoom rooms k = Some room.
Proof.
  intros [Hnodup _] Hfind. apply In_getRoom; [exact Hnodup |].
  eapply find_socket_some; eauto.
Qed.

(** *** Calm mutations *)

Lemma calm_refl (room : Room) : calm user room room.
Proof. unfold calm. auto. Qed.

Lemma calm_trans (r1 r2 r3 : Room) : calm user r1 r2 -> calm user r2 r3 -> calm user r1 r3.
Proof.
  unfold calm. intros (Hi1 & Hh1 & Hc1) (Hi2 & Hh2 & Hc2).
  repeat split; try congruence.
  destruct Hc2 as [Hc2 | Hc2]; [| auto].
  destruct Hc1 as [Hc1 | Hc1]; [left; congruence | right; congruence].
Qed.

Lemma calm_weight (room room' : Room) : calm user room room' -> weight room' <= weight room.
Proof.
  unfold calm, Spec.weight, roles_of. intros (_ & Hh & Hc). rewrite Hh.
  rewrite !length_app.
  destruct Hc as [-> | Hc]; [lia |].
  destruct (field_is (clientUserId room') user) eqn:Hf.
  - apply field_is_true in Hf. contradiction.
  - simpl. lia.
Qed.

Lemma calm_normalize (room x : Room) : calm user room x -> calm user room (normalizeRoomState x).
Proof.
  intros Hx. eapply calm_trans; [exact Hx |].
  unfold calm. rewrite normalize_id, normalize_hostUserId, normalize_clientUserId.
  repeat split.
  destruct (truthy (clientUserId x) && field_is (clientUserId x) (hostUserId x));
    [right; discriminate | left; reflexivity].
Qed.

Lemma calm_set_hostSocketId (room x : Room) v :
  calm user room x -> calm user room (set_hostSocketId v x).
Proof. intros Hx. eapply calm_trans; [exact Hx |]. unfold calm. simpl. auto. Qed.

Lemma calm_set_clientSocketId (room x : Room) v :
  calm user room x -> calm user room (set_clientSocketId v x).
Proof. intros Hx. eapply calm_trans; [exact Hx |]. unfold calm. simpl. auto. Qed.

Lemma calm_set_controlActive (room x : Room) v :
  calm user room x -> calm user room (set_controlActive v x).
Proof. intros Hx. eapply calm_trans; [exact Hx |]. unfold calm. simpl. auto. Qed.

Lemma calm_set_cameraActive (room x : Room) v :
  calm user room x -> calm user room (set_cameraActive v x).
Proof. intros Hx. eapply calm_trans; [exact Hx |]. unfold calm. simpl. auto. Qed.

Lemma calm_attachSocket (room x : Room) role socketId :
  calm user room x -> calm user room (attachSocket x role socketId).
Proof.
  intros Hx. destruct role; simpl;
    [now apply calm_set_hostSocketId | now apply calm_set_clientSocketId].
Qed.

Lemma calm_clearSocket (room x : Room) role :
  calm user room x -> calm user room (clearSocket x role).
Proof.
  intros Hx. unfold clearSocket.
  apply calm_set_cameraActive, calm_set_controlActive.
  destruct role; [now apply calm_set_hostSocketId | now apply calm_set_clientSocketId].
Qed.

Lemma calm_clear_client (room x : Room) :
  calm user room x -> calm user room (set_clientUserId None x).
Proof.
  intros Hx. eapply calm_trans; [exact Hx |]. unfold calm. simpl.
  repeat split. right. discriminate.
Qed.

Lemma calm_set_client_other (room x : Room) (who : UserId) :
  who <> user -> calm user room x -> calm user room (set_clientUserId (Some who) x).
Proof.
  intros Hne Hx. eapply calm_trans; [exact Hx |]. unfold calm. simpl.
  repeat split. right. congruence.
Qed.

Lemma benign_keeps (rooms rooms' : RoomMap) :
  well_keyed rooms -> total rooms <= 1 -> benign user rooms rooms' ->
  well_keyed rooms' /\ total rooms' <= 1.
Proof.
  intros Hwk Hle [-> | (k & room & room' & -> & Hget & Hcalm)]; [auto |].
  split.
  - eapply well_keyed_put; eauto. apply Hcalm.
  - pose proof (total_put _ k room room' Hget). pose proof (calm_weight _ _ Hcalm). lia.
Qed.

End Bindings.

Ltac solve_calm :=
  repeat first
    [ apply calm_refl
    | apply calm_normalize
    | apply calm_set_hostSocketId
    | apply calm_set_clientSocketId
    | apply calm_set_controlActive
    | apply calm_set_cameraActive
    | apply calm_attachSocket
    | apply calm_clearSocket
    | apply calm_clear_client
    | apply calm_set_client_other; [assumption |] ].

Ltac solve_benign :=
  simpl; rewrite ?put_put;
  first [ left; reflexivity
        | right; do 3 eexists;
          split; [reflexivity | split; [eassumption | solve_calm]] ].

Section Handlers.

Import MemoryStore Gateway Scenario Spec.

Variable user : UserId.

Lemma on_identify_benign g socketId payload :
  well_keyed (rooms g) ->
  benign user (rooms g) (rooms (fst (on_identify g socketId payload))).
Proof.
  intros Hwk. unfold on_identify, restoreSession, reject, store, with_rooms; cbv zeta; simpl.
  destruct (isIdentifyPayload payload); simpl; [| solve_benign].
  destruct (findRoomByUserId (rooms g) (str (get payload "userId")))
    as [[[k room] role] |] eqn:Hfind; simpl; [| solve_benign].
  apply (find_user_getRoom _ _ _ _ _ Hwk) in Hfind. solve_benign.
Qed.

Lemma on_quiet_handlers_benign g socketId payload :
  benign user (rooms g) (rooms (fst (on_webrtc_signal g socketId payload)))
  /\ benign user (rooms g) (rooms (fst (on_control_status g socketId payload)))
  /\ benign user (rooms g) (rooms (fst (on_camera_request g socketId payload)))
  /\ benign user (rooms g) (rooms (fst (on_camera_permission g socketId payload)))
  /\ benign user (rooms g) (rooms (fst (on_camera_state g socketId payload)))
  /\ benign user (rooms g) (rooms (fst (on_media_kind g socketId payload))).
Proof.
  repeat split;
    unfold on_webrtc_signal, on_control_status, on_camera_request, on_camera_permission,
      on_camera_state, on_media_kind, reject, identify_first, store, with_rooms;
    cbv zeta;
    repeat match goal with
           | |- context [match ?x with _ => _ end] =>
               destruct x eqn:?; cbn [fst snd rooms]
           end;
    cbn [fst snd rooms]; rewrite ?put_put;
    first [ left; reflexivity
          | right; do 3 eexists;
            split; [reflexivity | split; [eassumption | solve_calm]] ].
Qed.

Lemma on_disconnect_benign g socketId :
  well_keyed (rooms g) ->
  benign user (rooms g) (rooms (fst (on_disconnect g socketId))).
Proof.
  intros Hwk. unfold on_disconnect, removeSocket, with_rooms.
  destruct (findRoomBySocketId (rooms g) socketId) as [[[k room] role] |] eqn:Hfind;
    simpl; [| solve_benign].
  apply (find_socket_getRoom _ _ _ _ _ Hwk) in Hfind. solve_benign.
Qed.

Lemma on_rejoin_room_benign g socketId payload :
  ensureIdentified g socketId <> Some user ->
  benign user (rooms g) (rooms (fst (on_rejoin_room g socketId payload))).
Proof.
  intros Hother.
  unfold on_rejoin_room, restoreSession, reject, identify_first, store, with_rooms;
    cbv zeta.
  destruct (isRejoinRoomPayload payload); simpl; [| solve_benign].
  destruct (ensureIdentified g socketId) as [who |] eqn:Hwho; simpl; [| solve_benign].
  assert (Hne : who <> user) by congruence.
  repeat match goal with
         | |- context [match ?x with _ => _ end] =>
             destruct x eqn:?; cbn [fst snd rooms]
         end;
    cbn [fst snd rooms]; rewrite ?put_put;
    first [ left; reflexivity
          | right; do 3 eexists;
            split; [reflexivity | split; [eassumption | solve_calm]] ].
Qed.

Lemma on_room_join_benign g socketId payload :
  ensureIdentified g socketId <> Some user ->
  benign user (rooms g) (rooms (fst (on_room_join g socketId payload))).
Proof.
  intros Hother.
  unfold on_room_join, reject, identify_first, store, with_rooms; cbv zeta.
  destruct (isRoomJoinPayload payload); simpl; [| solve_benign].
  destruct (ensureIdentified g socketId) as [who |] eqn:Hwho; simpl; [| solve_benign].
  assert (Hne : who <> user) by congruence.
  repeat match goal with
         | |- context [match ?x with _ => _ end] =>
             destruct x eqn:?; cbn [fst snd rooms]
         end;
    cbn [fst snd rooms]; rewrite ?put_put;
    first [ left; reflexivity
          | right; do 3 eexists;
            split; [reflexivity | split; [eassumption | solve_calm]] ].
Qed.

(** The user's own [room:join]: the checks that precede the binding
    leave no other room naming the user. *)
Lemma on_room_join_own g socketId payload :
  well_keyed (rooms g) -> total user (rooms g) <= 1 ->
  ensureIdentified g socketId = Some user ->
  well_keyed (rooms (fst (on_room_join g socketId payload)))
  /\ total user (rooms (fst (on_room_join g socketId payload))) <= 1.
Proof.
  intros Hwk Hle Hwho.
  unfold on_room_join, reject, identify_first. rewrite Hwho.
  destruct (isRoomJoinPayload payload); simpl; [| auto].
  set (k := str (get payload "roomId")).
  destruct (getRoom (rooms g) k) as [stored |] eqn:Hget; simpl; [| auto].
  set (room := normalizeRoomState stored).
  assert (Hbenign : benign user (rooms g) (put k room (rooms g))).
  { right. exists k, stored, room.
    split; [reflexivity | split; [exact Hget | apply calm_normalize, calm_refl]]. }
  destruct (benign_keeps user _ _ Hwk Hle Hbenign) as [Hwk1 Hle1].
  assert (Hget1 : getRoom (put k room (rooms g)) k = Some room)
    by (eapply getRoom_put_same; eauto).
  unfold store, with_rooms; simpl.
  destruct (findRoomByUserId (put k room (rooms g)) user) as [[[k' existing] role] |] eqn:Hfind.
  - destruct (id existing =? id room)%string eqn:Hsame; simpl; [| auto].
    destruct (hostUserId room =? user)%string eqn:Hhost; simpl; [auto |].
    match goal with
    | |- context [if ?b then _ else _] => destruct b
    end; simpl; [auto |].
    rewrite put_put. split.
    + eapply well_keyed_put; [exact Hwk | exact Hget |]. simpl. apply normalize_id.
    + apply String.eqb_eq in Hsame.
      pose proof (find_user_getRoom _ _ _ _ _ Hwk1 Hfind) as Hget'.
      pose proof (well_keyed_id _ _ _ Hwk1 (getRoom_entry _ _ _ Hget')) as Hk'.
      pose proof (well_keyed_id _ _ _ Hwk1 (getRoom_entry _ _ _ Hget1)) as Hk.
      assert (k' = k) by congruence. subst k'.
      assert (existing = room) by congruence. subst existing.
      pose proof (find_user_weight user _ _ _ _ Hfind) as Hweight.
      rewrite <- (put_put (rooms g) k room).
      match goal with
      | |- total user (put k ?r _) <= 1 =>
          pose proof (total_put user _ k room r Hget1) as Hsum;
          assert (Hnew : Spec.weight user r = 1)
      end.
      { unfold Spec.weight, roles_of. simpl. fold room. rewrite Hhost, String.eqb_refl.
        reflexivity. }
      lia.
  - simpl. destruct (hostUserId room =? user)%string eqn:Hhost; simpl; [auto |].
    match goal with
    | |- context [if ?b then _ else _] => destruct b
    end; simpl; [auto |].
    rewrite put_put. split.
    + eapply well_keyed_put; [exact Hwk | exact Hget |]. simpl. apply normalize_id.
    + pose proof (find_user_none user _ Hfind) as Hzero.
      rewrite <- (put_put (rooms g) k room).
      match goal with
      | |- total user (put k ?r _) <= 1 =>
          pose proof (total_put user _ k room r Hget1) as Hsum;
          assert (Hnew : Spec.weight user r = 1)
      end.
      { unfold Spec.weight, roles_of. simpl. fold room. rewrite Hhost, String.eqb_refl.
        reflexivity. }
      lia.
Qed.

Lemma ensureRoomId_fresh (draws : list N) (rooms : RoomMap) (attempts : N) (k : RoomId) :
  ensureRoomId_from attempts draws rooms = Some k -> has k rooms = false.
Proof.
  revert attempts. induction draws as [| draw later IH]; simpl; [discriminate |].
  intros attempts. destruct (attempts <? 1000000)%N; [| discriminate].
  destruct (MemoryStore.ROOM_ID_PATTERN (randomRoomId draw)); simpl; [| apply IH].
  destruct (has (randomRoomId draw) rooms) eqn:Hhas; simpl; [apply IH |].
  intros [= <-]. exact Hhas.
Qed.

Lemma NoDup_snoc (A : Type) (l : list A) (a : A) :
  NoDup l -> ~ In a l -> NoDup (l ++ [a]).
Proof.
  induction l as [| x rest IH]; simpl; intros Hnodup Hfresh.
  - constructor; [auto | constructor].
  - inversion Hnodup as [| ? ? Hx Hrest]; subst. constructor.
    + rewrite in_app_iff. simpl. intuition congruence.
    + apply IH; auto.
Qed.

Lemma on_room_create_keeps g socketId draws :
  well_keyed (rooms g) -> total user (rooms g) <= 1 ->
  well_keyed (rooms (fst (on_room_create g socketId draws)))
  /\ total user (rooms (fst (on_room_create g socketId draws))) <= 1.
Proof.
  intros Hwk Hle.
  unfold on_room_create, restoreSession, reject, identify_first, store, with_rooms;
    cbv zeta.
  destruct (ensureIdentified g socketId) as [who |] eqn:Hwho; simpl; [| auto].
  destruct (findRoomByUserId (rooms g) who) as [[[k room] [|]] |] eqn:Hfind; simpl;
    [| auto |].
  - apply (find_user_getRoom _ _ _ _ _ Hwk) in Hfind.
    apply (benign_keeps user _ _ Hwk Hle). solve_benign.
  - unfold createRoom, ensureRoomId.
    destruct (ensureRoomId_from 0 draws (rooms g)) as [k |] eqn:Hid; simpl; [| auto].
    apply ensureRoomId_fresh in Hid.
    unfold set. simpl. rewrite Hid. split.
    + destruct Hwk as [Hnodup Hids]. split.
      * rewrite map_app. simpl. apply NoDup_snoc; [exact Hnodup |].
        rewrite <- has_In. congruence.
      * apply Forall_app. split; [exact Hids |]. constructor; [reflexivity | constructor].
    + rewrite total_app. simpl. unfold Spec.weight, roles_of. simpl.
      destruct (who =? user)%string eqn:Hsame; simpl; [| lia].
      apply String.eqb_eq in Hsame. subst who.
      rewrite (find_user_none user _ Hfind). lia.
Qed.

(** Every event other than the user's own [rejoin-room] keeps the
    registry well keyed and the user named at most once. *)
Lemma step_keeps g socketId ev :
  well_keyed (rooms g) -> total user (rooms g) <= 1 ->
  rejoin_by user g socketId ev = false ->
  well_keyed (rooms (fst (step g socketId ev)))
  /\ total user (rooms (fst (step g socketId ev))) <= 1.
Proof.
  intros Hwk Hle Hallowed.
  pose proof (on_quiet_handlers_benign g socketId) as Hquiet.
  unfold step.
  destruct ev; simpl;
    [ destruct (connected g socketId || negb (truthy_string socketId)); simpl; auto
    | destruct (connected g socketId) eqn:Hconn; simpl; [| auto] .. ].
  - apply (benign_keeps user _ _ Hwk Hle). now apply on_identify_benign.
  - now apply on_room_create_keeps.
  - destruct (ensureIdentified g socketId) as [who |] eqn:Hwho.
    + destruct (string_dec who user) as [-> | Hne].
      * now apply on_room_join_own.
      * apply (benign_keeps user _ _ Hwk Hle). apply on_room_join_benign. congruence.
    + apply (benign_keeps user _ _ Hwk Hle). apply on_room_join_benign. congruence.
  - apply (benign_keeps user _ _ Hwk Hle). apply on_rejoin_room_benign.
    simpl in Hallowed. rewrite Hconn in Hallowed. simpl in Hallowed.
    intros Hwho. apply ensureIdentified_truthy in Hwho as [Hwho _].
    rewrite Hwho in Hallowed. simpl in Hallowed. rewrite String.eqb_refl in Hallowed.
    discriminate.
  - apply (benign_keeps user _ _ Hwk Hle). apply Hquiet.
  - apply (benign_keeps user _ _ Hwk Hle). apply Hquiet.
  - apply (benign_keeps user _ _ Hwk Hle). apply Hquiet.
  - apply (benign_keeps user _ _ Hwk Hle). apply Hquiet.
  - apply (benign_keeps user _ _ Hwk Hle). apply Hquiet.
  - apply (benign_keeps user _ _ Hwk Hle). apply Hquiet.
  - pose proof (on_disconnect_benign g socketId Hwk) as Hb.
    destruct (on_disconnect g socketId) as [g' out]. simpl in *.
    now apply (benign_keeps user _ _ Hwk Hle).
Qed.

Lemma run_keeps events g :
  well_keyed (rooms g) -> total user (rooms g) <= 1 ->
  no_rejoin_by user g events = true ->
  total user (rooms (run g events)) <= 1.
Proof.
  revert g. induction events as [| [socketId ev] later IH]; simpl; intros g Hwk Hle Hallowed.
  - exact Hle.
  - apply andb_true_iff in Hallowed as [Hhere Hlater].
    apply negb_true_iff in Hhere.
    destruct (step_keeps g socketId ev Hwk Hle Hhere) as [Hwk' Hle'].
    now apply IH.
Qed.

Lemma no_rejoin_by_prefix events g n :
  no_rejoin_by user g events = true -> no_rejoin_by user g (firstn n events) = true.
Proof.
  revert g n. induction events as [| [socketId ev] later IH]; intros g [| n]; simpl; auto.
  intros Hallowed. apply andb_true_iff in Hallowed as [Hhere Hlater].
  rewrite Hhere. simpl. now apply IH.
Qed.

End Handlers.

Section OneBinding.

Import MemoryStore Gateway Scenario Spec.

(** C4: along every sequence of events in which the user never issues
    [rejoin-room] (its own events are [identify], [room:create],
    [room:join], [disconnect] and the relay and status events; other
    users do anything), at every point the registry names the user in at
    most one (room, role) pair: at most one room, and in it one role. *)
Theorem user_bound_at_most_once (user : UserId) (events : list (SocketId * Event)) :
  no_rejoin_by user initial events = true ->
  forall n, List.length (bindings user (rooms (run initial (firstn n events)))) <= 1.
Proof.
  intros Hallowed n. rewrite bindings_total.
  apply run_keeps.
  - split; simpl; constructor.
  - simpl. lia.
  - now apply no_rejoin_by_prefix.
Qed.

Lemma user_bound_at_most_once_witness :
  List.length (bindings host_user (rooms (run initial (firstn 9 busy_session)))) <= 1
  /\ List.length (bindings host_user (rooms (run initial (firstn 13 busy_session)))) <= 1.
Proof.
  split; apply (user_bound_at_most_once host_user busy_session); vm_compute; reflexivity.
Defined.

(** The restriction is needed: [rejoin-room] as client binds the caller
    to a room without a client although the caller hosts another one. *)
Example rejoin_room_binds_a_second_room :
  bindings host_user
           (rooms (run hosted [("s2", EvConnection); ("s2", identify_as other_user);
                               ("s2", EvRoomCreate [111111%N]);
                               ("s1", EvRejoinRoom (rejoin_payload "111111" "client"))]))
  = [(code, host); ("111111", client)].
Proof. reflexivity. Qed.

End OneBinding.

(** ** The remote-input protocol *)

Section RemoteInput.

Import WebRtc TestBrowser.

Context `{Browser}.

Lemma inbound_message_has_sender (payload : JsValue) :
  isInboundControlMessage payload = true ->
  get payload "senderUserId" = JsString (str (get payload "senderUserId")).
Proof.
  unfold isInboundControlMessage.
  destruct (negb (isRecord payload) || negb (isString (get payload "type")));
    [discriminate |].
  destruct (get payload "senderUserId"); simpl; try discriminate.
  reflexivity.
Qed.

(** C8: a data-channel message that parses to a value whose
    [senderUserId] is not the room's recorded host identity has no
    effect: no scroll, no media command, no mouse event. *)
Theorem foreign_sender_has_no_effect
        (role : option Role) (hostUserId : option UserId) (text : string)
        (parsed : JsValue) :
  JSON_parse text = Some parsed ->
  (forall hostId, hostUserId = Some hostId -> get parsed "senderUserId" <> JsString hostId) ->
  handleControlMessage role hostUserId (data_string text) = [].
Proof.
  intros Hparse Hforeign. unfold handleControlMessage.
  destruct role as [[|] |]; try reflexivity.
  rewrite Hparse.
  destruct (isInboundControlMessage parsed) eqn:Hshape; simpl; [| reflexivity].
  destruct hostUserId as [hostId |]; simpl; [| reflexivity].
  destruct (hostId =? str (get parsed "senderUserId"))%string eqn:Hsame.
  - apply String.eqb_eq in Hsame. exfalso. apply (Hforeign hostId eq_refl).
    rewrite (inbound_message_has_sender _ Hshape). now subst hostId.
  - rewrite orb_true_r. reflexivity.
Qed.

(** C10: on an endpoint whose role is not client, no data-channel
    message has any effect, whoever sent it. *)
Theorem host_side_ignores_control_messages
        (role : option Role) (hostUserId : option UserId) (rawData : RawData) :
  role <> Some client ->
  handleControlMessage role hostUserId rawData = [].
Proof.
  intros Hrole. unfold handleControlMessage.
  destruct role as [[|] |]; [reflexivity | contradiction | reflexivity].
Qed.

End RemoteInput.

Section RemoteInputWitnesses.

Import WebRtc TestBrowser.

Lemma foreign_sender_has_no_effect_witness :
  @handleControlMessage test_browser (Some client) (Some "host-user-0001")
                        (data_string "click from an intruder") = [].
Proof.
  apply (@foreign_sender_has_no_effect test_browser (Some client) (Some "host-user-0001")
           "click from an intruder" (click_from "intruder-0009")).
  - reflexivity.
  - intros hostId [= <-]. vm_compute. discriminate.
Defined.

Lemma host_side_ignores_control_messages_witness :
  @handleControlMessage test_browser (Some host) (Some "host-user-0001")
                        (data_string "click from the host") = [].
Proof.
  apply (@host_side_ignores_control_messages test_browser (Some host)
           (Some "host-user-0001") (data_string "click from the host")).
  discriminate.
Defined.

(** The same message on the client side is carried out. *)
Example client_side_executes_host_click :
  @handleControlMessage test_browser (Some client) (Some "host-user-0001")
                        (data_string "click from the host")
  = [dispatchEvent "mousedown" (NumFinite 640 0) (NumFinite 180 0) (NumFinite 0 0);
     dispatchEvent "mouseup" (NumFinite 640 0) (NumFinite 180 0) (NumFinite 0 0);
     dispatchEvent "click" (NumFinite 640 0) (NumFinite 180 0) (NumFinite 0 0)].
Proof. reflexivity. Qed.

End RemoteInputWitnesses.

(** ** ICE candidate buffering *)

Section IceBuffering.

Import WebRtc TestBrowser.

Context `{Browser}.

Variable role : option Role.

Lemma flush_queue_calls (connection : Connection) (queued : list IceCandidate) :
  snd (flush_queue connection queued) = map call_addIceCandidate queued.
Proof.
  revert connection. induction queued as [| c rest IH]; intros connection; simpl;
    [reflexivity |].
  destruct (addIceCandidate connection c) as [resolved connection1].
  specialize (IH connection1).
  destruct (flush_queue connection1 rest) as [connection2 calls]. simpl in *.
  now rewrite IH.
Qed.

Lemma filter_add_calls (queued : list IceCandidate) :
  filter is_addIceCandidate (map call_addIceCandidate queued)
  = map call_addIceCandidate queued.
Proof.
  induction queued as [| c rest IH]; simpl; [reflexivity | now rewrite IH].
Qed.

Lemma ensure_makes_no_add (m : WebRtcManager) :
  filter is_addIceCandidate (snd (ensurePeerConnection role m)) = [].
Proof.
  unfold ensurePeerConnection.
  destruct (peerConnection m); [reflexivity |].
  destruct role as [[|] |]; reflexivity.
Qed.

Lemma ensure_pending (m : WebRtcManager) :
  pendingIceCandidates (fst (fst (ensurePeerConnection role m))) = pendingIceCandidates m.
Proof.
  unfold ensurePeerConnection.
  destruct (peerConnection m); [reflexivity |].
  destruct role as [[|] |]; reflexivity.
Qed.

(** A candidate arriving while the connection has no remote description
    goes to the end of the buffer; nothing is applied. *)
Lemma candidate_buffered (m : WebRtcManager) (c : IceCandidate) :
  remoteDescription (connection_of role m) = false ->
  let result := handleSignal role m (ice_candidate c) in
  pendingIceCandidates (fst (fst result)) = pendingIceCandidates m ++ [c]
  /\ connection_of role (fst (fst result)) = connection_of role m
  /\ filter is_addIceCandidate (snd (fst result)) = [].
Proof.
  intros Hnone. unfold connection_of in *. unfold handleSignal.
  pose proof (ensure_makes_no_add m) as Hcreated.
  pose proof (ensure_pending m) as Hpending.
  destruct (ensurePeerConnection role m) as [[m1 connection] created]. simpl in *.
  rewrite Hnone. simpl. rewrite Hpending. auto.
Qed.

Lemma candidates_buffered (cs : list IceCandidate) (m : WebRtcManager) :
  remoteDescription (connection_of role m) = false ->
  let result := handleSignals role m (map ice_candidate cs) in
  pendingIceCandidates (fst result) = pendingIceCandidates m ++ cs
  /\ connection_of role (fst result) = connection_of role m
  /\ filter is_addIceCandidate (snd result) = [].
Proof.
  revert m. induction cs as [| c rest IH]; intros m Hnone; simpl.
  - rewrite app_nil_r. auto.
  - destruct (candidate_buffered m c Hnone) as (Hp & Hc & He).
    destruct (handleSignal role m (ice_candidate c)) as [[m1 e1] outcome]. simpl in *.
    assert (Hnone1 : remoteDescription (connection_of role m1) = false) by now rewrite Hc.
    destruct (IH m1 Hnone1) as (Hp' & Hc' & He').
    destruct (handleSignals role m1 (map ice_candidate rest)) as [m2 e2]. simpl in *.
    rewrite Hp', Hp, <- app_assoc. simpl.
    rewrite filter_app, He, He'. split; [reflexivity | split; [congruence | reflexivity]].
Qed.

(** Applying a remote description flushes the buffer: every buffered
    candidate is handed to [addIceCandidate], in buffer order, whatever
    the single calls answer, and the buffer is empty afterwards. *)
Lemma description_flushes (m : WebRtcManager) (signal : WebRtcSignal) (type sdp : string) :
  (forall connection type sdp,
      fst (setRemoteDescription connection type sdp) = true ->
      remoteDescription (snd (setRemoteDescription connection type sdp)) = true) ->
  description_of signal = Some (type, sdp) ->
  fst (setRemoteDescription (connection_of role m) type sdp) = true ->
  let result := handleSignal role m signal in
  pendingIceCandidates (fst (fst result)) = []
  /\ filter is_addIceCandidate (snd (fst result))
     = map call_addIceCandidate (pendingIceCandidates m).
Proof.
  intros Hcontract Hdesc Hresolved. unfold connection_of in *. unfold handleSignal.
  pose proof (ensure_makes_no_add m) as Hcreated.
  pose proof (ensure_pending m) as Hpending.
  destruct (ensurePeerConnection role m) as [[m1 connection] created]. simpl in *.
  destruct signal as [sdp' | sdp' | c]; simpl in Hdesc; [| | discriminate];
    injection Hdesc as <- <-;
    specialize (Hcontract connection _ sdp' Hresolved);
    destruct (setRemoteDescription connection _ sdp') as [resolved c1]; simpl in *;
    subst resolved; simpl;
    unfold flushPendingIceCandidates; rewrite Hcontract; simpl;
    pose proof (flush_queue_calls c1 (pendingIceCandidates m1)) as Hcalls;
    destruct (flush_queue c1 (pendingIceCandidates m1)) as [c2 calls]; simpl in *;
    subst calls; rewrite Hpending.
  - destruct (createAnswer c2) as [[answer_sdp |] c3]; simpl.
    + destruct (setLocalDescription c3 answer_sdp) as [applied c4].
      destruct applied; simpl;
        [destruct answer_sdp as [text |]; [destruct (truthy_string text) |] |];
        simpl; rewrite ?filter_app, Hcreated, filter_add_calls; simpl;
        rewrite ?app_nil_r; auto.
    + rewrite ?filter_app, Hcreated, filter_add_calls; simpl; rewrite ?app_nil_r; auto.
  - rewrite ?filter_app, Hcreated, filter_add_calls; simpl; rewrite ?app_nil_r; auto.
Qed.

Lemma flush_queue_connection (connection : Connection) (queued : list IceCandidate) :
  fst (flush_queue connection queued) = apply_candidates connection queued.
Proof.
  revert connection. unfold apply_candidates.
  induction queued as [| c rest IH]; intros connection; simpl; [reflexivity |].
  destruct (addIceCandidate connection c) as [resolved connection1]. simpl.
  rewrite <- IH. now destruct (flush_queue connection1 rest).
Qed.

(** The connection the manager holds after an offer or an answer has
    been handled: the remote description set, then every buffered
    candidate applied in buffer order, then the answer steps of an offer. *)
Lemma description_applies (m : WebRtcManager) (signal : WebRtcSignal) (type sdp : string) :
  (forall connection type sdp,
      fst (setRemoteDescription connection type sdp) = true ->
      remoteDescription (snd (setRemoteDescription connection type sdp)) = true) ->
  description_of signal = Some (type, sdp) ->
  fst (setRemoteDescription (connection_of role m) type sdp) = true ->
  peerConnection (fst (fst (handleSignal role m signal)))
  = Some (after_flush signal
            (apply_candidates (snd (setRemoteDescription (connection_of role m) type sdp))
                              (pendingIceCandidates m))).
Proof.
  intros Hcontract Hdesc Hresolved. unfold connection_of in *. unfold handleSignal.
  pose proof (ensure_pending m) as Hpending.
  destruct (ensurePeerConnection role m) as [[m1 connection] created]. simpl in *.
  destruct signal as [sdp' | sdp' | c]; simpl in Hdesc; [| | discriminate];
    injection Hdesc as <- <-;
    specialize (Hcontract connection _ sdp' Hresolved);
    destruct (setRemoteDescription connection _ sdp') as [resolved c1]; simpl in *;
    subst resolved; simpl;
    unfold flushPendingIceCandidates; rewrite Hcontract; simpl;
    pose proof (flush_queue_connection c1 (pendingIceCandidates m1)) as Hconn;
    destruct (flush_queue c1 (pendingIceCandidates m1)) as [c2 calls]; simpl in *;
    subst c2; rewrite Hpending.
  - unfold answer_steps.
    destruct (createAnswer (apply_candidates c1 (pendingIceCandidates m)))
      as [[answer_sdp |] c3]; simpl; [| reflexivity].
    destruct (setLocalDescription c3 answer_sdp) as [applied c4].
    destruct applied; simpl;
      [destruct answer_sdp as [text |]; [destruct (truthy_string text) |] |];
      reflexivity.
  - reflexivity.
Qed.

(** C7: candidates that arrive while the connection has no remote
    description are appended to the buffer in arrival order and none is
    applied: the connection stays as it was.  When an offer or an answer
    is then applied, every buffered candidate is handed to
    [addIceCandidate] in that order, whether or not the single calls
    succeed: the connection the manager holds afterwards is the one with
    the description set on which [addIceCandidate] has been applied to
    each buffered candidate in turn (followed, for an offer, by the
    answer steps); and the buffer is empty afterwards. *)
Theorem buffered_candidates_flushed_in_order
        (m : WebRtcManager) (cs : list IceCandidate) (signal : WebRtcSignal)
        (type sdp : string) :
  (forall connection type sdp,
      fst (setRemoteDescription connection type sdp) = true ->
      remoteDescription (snd (setRemoteDescription connection type sdp)) = true) ->
  remoteDescription (connection_of role m) = false ->
  description_of signal = Some (type, sdp) ->
  fst (setRemoteDescription (connection_of role m) type sdp) = true ->
  let buffered := handleSignals role m (map ice_candidate cs) in
  let flushed := handleSignal role (fst buffered) signal in
  pendingIceCandidates (fst buffered) = pendingIceCandidates m ++ cs
  /\ filter is_addIceCandidate (snd buffered) = []
  /\ connection_of role (fst buffered) = connection_of role m
  /\ filter is_addIceCandidate (snd (fst flushed))
     = map call_addIceCandidate (pendingIceCandidates m ++ cs)
  /\ peerConnection (fst (fst flushed))
     = Some (after_flush signal
               (apply_candidates
                  (snd (setRemoteDescription (connection_of role m) type sdp))
                  (pendingIceCandidates m ++ cs)))
  /\ pendingIceCandidates (fst (fst flushed)) = [].
Proof.
  intros Hcontract Hnone Hdesc Hresolved buffered flushed.
  destruct (candidates_buffered cs m Hnone) as (Hp & Hc & He).
  fold buffered in Hp, Hc, He.
  assert (Hresolved' : fst (setRemoteDescription (connection_of role (fst buffered)) type sdp)
                       = true) by now rewrite Hc.
  destruct (description_flushes (fst buffered) signal type sdp Hcontract Hdesc Hresolved')
    as (Hempty & Hcalls).
  pose proof (description_applies (fst buffered) signal type sdp Hcontract Hdesc Hresolved')
    as Hconn.
  fold flushed in Hempty, Hcalls, Hconn.
  rewrite Hp in Hcalls. rewrite Hp, Hc in Hconn. auto 10.
Qed.

End IceBuffering.

Section IceBufferingWitness.

Import WebRtc TestBrowser.

Lemma buffered_candidates_flushed_in_order_witness :
  let buffered := @handleSignals test_browser (Some host) (@fresh test_browser)
                    (map ice_candidate [ice "a"; ice EmptyString; ice "b"]) in
  let flushed := @handleSignal test_browser (Some host) (fst buffered) (offer "v=0") in
  pendingIceCandidates (fst buffered)
  = pendingIceCandidates (@fresh test_browser) ++ [ice "a"; ice EmptyString; ice "b"]
  /\ filter is_addIceCandidate (snd buffered) = []
  /\ @connection_of test_browser (Some host) (fst buffered)
     = @connection_of test_browser (Some host) (@fresh test_browser)
  /\ filter is_addIceCandidate (snd (fst flushed))
     = map call_addIceCandidate
           (pendingIceCandidates (@fresh test_browser)
            ++ [ice "a"; ice EmptyString; ice "b"])
  /\ peerConnection (fst (fst flushed))
     = Some (@after_flush test_browser (offer "v=0")
               (@apply_candidates test_browser
                  (snd (@setRemoteDescription test_browser
                          (@connection_of test_browser (Some host) (@fresh test_browser))
                          "offer" "v=0"))
                  (pendingIceCandidates (@fresh test_browser)
                   ++ [ice "a"; ice EmptyString; ice "b"])))
  /\ pendingIceCandidates (fst (fst flushed)) = [].
Proof.
  apply (@buffered_candidates_flushed_in_order test_browser (Some host)
           (@fresh test_browser) [ice "a"; ice EmptyString; ice "b"] (offer "v=0")
           "offer" "v=0").
  - intros connection type sdp _. reflexivity.
  - reflexivity.
  - reflexivity.
  - reflexivity.
Defined.

(** In the test browser the candidate with the empty line is refused;
    the two around it are added all the same, in order. *)
Example refused_candidate_does_not_stop_the_flush :
  let buffered := @handleSignals test_browser (Some host) (@fresh test_browser)
                    (map ice_candidate [ice "a"; ice EmptyString; ice "b"]) in
  let flushed := @handleSignal test_browser (Some host) (fst buffered) (answer "v=0") in
  option_map added (peerConnection (fst (fst flushed))) = Some [ice "a"; ice "b"]
  /\ snd flushed = returned.
Proof. split; reflexivity. Qed.

End IceBufferingWitness.

(** ** Renegotiation *)

Section Renegotiation.

Import WebRtc TestBrowser.

Context `{Browser}.

Lemma ensure_flags (role : option Role) (m : WebRtcManager) :
  isNegotiating (fst (fst (ensurePeerConnection role m))) = isNegotiating m
  /\ hasQueuedRenegotiation (fst (fst (ensurePeerConnection role m)))
     = hasQueuedRenegotiation m
  /\ filter is_createOffer (snd (ensurePeerConnection role m)) = [].
Proof.
  unfold ensurePeerConnection.
  destruct (peerConnection m); [auto |].
  destruct role as [[|] |]; auto.
Qed.

Lemma offer_effects_make_no_offer (result : OfferResult) :
  filter is_createOffer (offer_effects result) = [].
Proof.
  destruct result as [| [text |] [|]]; simpl; try reflexivity.
  destruct (truthy_string text); reflexivity.
Qed.

(** What [negotiateAsClient] does on a client, by the flag it finds. *)
Lemma enter_as_client (e : Endpoint) :
  let e' := negotiateAsClient_enter (Some client) e in
  if isNegotiating (manager e) then
    isNegotiating (manager e') = true
    /\ hasQueuedRenegotiation (manager e') = true
    /\ inFlight e' = inFlight e
    /\ offers_started e' = offers_started e
  else
    isNegotiating (manager e') = true
    /\ hasQueuedRenegotiation (manager e') = hasQueuedRenegotiation (manager e)
    /\ inFlight e' = S (inFlight e)
    /\ offers_started e' = S (offers_started e).
Proof.
  unfold negotiateAsClient_enter.
  destruct (ensure_flags (Some client) (manager e)) as (Hn & Hq & Hc).
  destruct (ensurePeerConnection (Some client) (manager e)) as [[m1 connection] created].
  simpl in *. rewrite Hn.
  destruct e as [m n t]. simpl in *.
  destruct (isNegotiating m); simpl; repeat split; auto.
  - unfold offers_started. simpl. rewrite filter_app, length_app, Hc. simpl. lia.
  - unfold offers_started. simpl. rewrite !filter_app, !length_app, Hc. simpl. lia.
Qed.

Lemma enter_other_role (role : option Role) (e : Endpoint) :
  role <> Some client -> negotiateAsClient_enter role e = e.
Proof.
  intros Hrole. unfold negotiateAsClient_enter.
  destruct role as [[|] |]; [reflexivity | contradiction | reflexivity].
Qed.

Lemma enter_steady (role : option Role) (e : Endpoint) :
  steady e -> steady (negotiateAsClient_enter role e).
Proof.
  intros Hsteady.
  destruct role as [[|] |]; try (rewrite enter_other_role by discriminate; exact Hsteady).
  pose proof (enter_as_client e) as Henter. unfold steady in *. cbv zeta in Henter.
  destruct (isNegotiating (manager e)).
  - destruct Henter as (-> & _ & -> & _). exact Hsteady.
  - destruct Henter as (-> & _ & -> & _). destruct Hsteady as [-> _]. reflexivity.
Qed.

Lemma resume_steady (role : option Role) (e : Endpoint) (result : OfferResult) :
  steady e -> inFlight e = 1 -> steady (negotiateAsClient_resume role e result).
Proof.
  intros Hsteady Hone. unfold negotiateAsClient_resume.
  destruct (hasQueuedRenegotiation (manager e)) eqn:Hq.
  - apply enter_steady. unfold steady. simpl. rewrite Hone. auto.
  - unfold steady. simpl. rewrite Hone. auto.
Qed.

Lemma steady_inFlight (e : Endpoint) : steady e -> inFlight e <= 1.
Proof.
  unfold steady. destruct (isNegotiating (manager e)); [lia | intros [-> _]; lia].
Qed.

Lemma step_steady (e : Endpoint) (role : option Role) (ev : NegotiationEvent) :
  (if is_close_event (role, ev) then Nat.eqb (inFlight e) 0 else true) = true ->
  steady e -> steady (endpoint_step e role ev).
Proof.
  intros Hev Hsteady. destruct ev as [| result | preserve]; simpl.
  - now apply enter_steady.
  - destruct (inFlight e) as [| n] eqn:Hn; [exact Hsteady |].
    apply resume_steady; [exact Hsteady |].
    pose proof (steady_inFlight e Hsteady). lia.
  - simpl in Hev. apply Nat.eqb_eq in Hev. unfold steady. simpl. auto.
Qed.

Lemma run_steady (events : list (option Role * NegotiationEvent)) (e : Endpoint) :
  closes_when_idle e events = true -> steady e -> steady (endpoint_run e events).
Proof.
  revert e. induction events as [| [role ev] later IH]; simpl; intros e Hquiet Hsteady;
    [exact Hsteady |].
  apply andb_true_iff in Hquiet as [Hhere Hlater].
  apply IH; [exact Hlater |]. now apply step_steady.
Qed.

Lemma quiet_prefix (events : list (option Role * NegotiationEvent)) (e : Endpoint) (k : nat) :
  closes_when_idle e events = true -> closes_when_idle e (firstn k events) = true.
Proof.
  revert e k. induction events as [| [role ev] later IH]; intros e [| k]; simpl; auto.
  intros Hquiet. apply andb_true_iff in Hquiet as [-> Hlater]. simpl. now apply IH.
Qed.

(** Requests made while an offer is in the making only set the flag. *)
Lemma requests_while_in_flight (n : nat) (e : Endpoint) :
  isNegotiating (manager e) = true ->
  let waiting := endpoint_run e (repeat (Some client, negotiate_called) (S n)) in
  isNegotiating (manager waiting) = true
  /\ hasQueuedRenegotiation (manager waiting) = true
  /\ inFlight waiting = inFlight e
  /\ offers_started waiting = offers_started e.
Proof.
  revert e. induction n as [| n IH]; intros e Hneg.
  - simpl. pose proof (enter_as_client e) as Henter. cbv zeta in Henter.
    rewrite Hneg in Henter. exact Henter.
  - change (repeat (Some client, negotiate_called) (S (S n)))
      with ((Some client, negotiate_called) :: repeat (Some client, negotiate_called) (S n)).
    cbn [endpoint_run endpoint_step].
    pose proof (enter_as_client e) as Henter. cbv zeta in Henter.
    rewrite Hneg in Henter. destruct Henter as (Hn & Hq & Hi & Hr).
    destruct (IH _ Hn) as (Hn' & Hq' & Hi' & Hr').
    repeat split; congruence.
Qed.

Lemma steady_initial : steady endpoint_initial.
Proof. unfold steady. simpl. auto. Qed.

(** When the activation in progress settles with a request recorded,
    a client starts on one further offer at once. *)
Lemma settle_with_request_as_client (e : Endpoint) (result : OfferResult) :
  inFlight e = 1 ->
  hasQueuedRenegotiation (manager e) = true ->
  let next := endpoint_step e (Some client) (offer_settled result) in
  isNegotiating (manager next) = true
  /\ hasQueuedRenegotiation (manager next) = false
  /\ inFlight next = 1
  /\ offers_started next = S (offers_started e).
Proof.
  intros Hone Hq next. unfold next, endpoint_step. rewrite Hone.
  unfold negotiateAsClient_resume. rewrite Hq.
  match goal with
  | |- context [negotiateAsClient_enter (Some client) ?x] => set (resumed := x)
  end.
  pose proof (enter_as_client resumed) as Henter. cbv zeta in Henter.
  assert (Hidle : isNegotiating (manager resumed) = false) by reflexivity.
  rewrite Hidle in Henter. destruct Henter as (Hn & Hq' & Hi & Hr).
  split; [exact Hn |]. split; [rewrite Hq'; reflexivity |].
  split; [rewrite Hi; unfold resumed; simpl; rewrite Hone; reflexivity |].
  rewrite Hr. unfold offers_started, resumed. simpl.
  now rewrite filter_app, length_app, offer_effects_make_no_offer, Nat.add_0_r.
Qed.

(** In any other role the recorded request is dropped when the
    activation in progress settles. *)
Lemma settle_with_request_other_role (role : option Role) (e : Endpoint)
      (result : OfferResult) :
  role <> Some client ->
  inFlight e = 1 ->
  hasQueuedRenegotiation (manager e) = true ->
  let dropped := endpoint_step e role (offer_settled result) in
  isNegotiating (manager dropped) = false
  /\ hasQueuedRenegotiation (manager dropped) = false
  /\ inFlight dropped = 0
  /\ offers_started dropped = offers_started e.
Proof.
  intros Hrole Hone Hq dropped. unfold dropped, endpoint_step. rewrite Hone.
  unfold negotiateAsClient_resume. rewrite Hq.
  rewrite enter_other_role by exact Hrole. simpl. rewrite Hone.
  repeat split. unfold offers_started. simpl.
  now rewrite filter_app, length_app, offer_effects_make_no_offer, Nat.add_0_r.
Qed.

(** With no request recorded, the settling activation starts nothing,
    whatever the role. *)
Lemma settle_without_request (role : option Role) (e : Endpoint) (result : OfferResult) :
  inFlight e = 1 ->
  hasQueuedRenegotiation (manager e) = false ->
  let after := endpoint_step e role (offer_settled result) in
  isNegotiating (manager after) = false
  /\ inFlight after = 0
  /\ offers_started after = offers_started e.
Proof.
  intros Hone Hq after. unfold after, endpoint_step. rewrite Hone.
  unfold negotiateAsClient_resume. rewrite Hq. simpl. rewrite Hone.
  repeat split. unfold offers_started. simpl.
  now rewrite filter_app, length_app, offer_effects_make_no_offer, Nat.add_0_r.
Qed.

(** C6, as the code has it.  What [negotiateAsClient] serialises is the
    making of an offer: from [createOffer] until the offer has been
    handed to [onSignal] (or an awaited call has rejected) and the
    [finally] block has run; the answer of the peer plays no part in it.
    As long as [closePeerConnection] is not called while an offer is in
    the making, at every point at most one offer is in the making.  When
    one is, any number [S n] of further [negotiateAsClient] calls made as
    client call [createOffer] not once and leave one request recorded.
    When the offer in the making then settles
    - with the role still client, exactly one further [createOffer] is
      made at once, the record is cleared, and when that one settles, in
      whatever role and with no request in between, none follows;
    - with any other role, the recorded request is dropped: no
      [createOffer] follows and nothing is left in the making. *)
Theorem renegotiation_coalesces (events : list (option Role * NegotiationEvent)) :
  closes_when_idle endpoint_initial events = true ->
  (forall k, inFlight (endpoint_run endpoint_initial (firstn k events)) <= 1)
  /\ (let e := endpoint_run endpoint_initial events in
      inFlight e = 1 ->
      forall (n : nat) (result : OfferResult),
        let waiting := endpoint_run e (repeat (Some client, negotiate_called) (S n)) in
        (offers_started waiting = offers_started e
         /\ inFlight waiting = 1
         /\ hasQueuedRenegotiation (manager waiting) = true)
        /\ (let next := endpoint_step waiting (Some client) (offer_settled result) in
            offers_started next = S (offers_started e)
            /\ inFlight next = 1
            /\ hasQueuedRenegotiation (manager next) = false
            /\ forall (role' : option Role) (result' : OfferResult),
                let after := endpoint_step next role' (offer_settled result') in
                offers_started after = offers_started next
                /\ inFlight after = 0
                /\ isNegotiating (manager after) = false)
        /\ (forall role : option Role,
               role <> Some client ->
               let dropped := endpoint_step waiting role (offer_settled result) in
               offers_started dropped = offers_started e
               /\ inFlight dropped = 0
               /\ isNegotiating (manager dropped) = false
               /\ hasQueuedRenegotiation (manager dropped) = false)).
Proof.
  intros Hquiet. split.
  - intros k. apply steady_inFlight, run_steady; [now apply quiet_prefix | apply steady_initial].
  - intros e Hone n result waiting.
    pose proof (run_steady events endpoint_initial Hquiet steady_initial) as Hsteady.
    fold e in Hsteady.
    assert (Hneg : isNegotiating (manager e) = true).
    { unfold steady in Hsteady. destruct (isNegotiating (manager e)); [reflexivity |].
      destruct Hsteady as [Hzero _]. congruence. }
    destruct (requests_while_in_flight n e Hneg) as (Hwn & Hwq & Hwi & Hwr).
    fold waiting in Hwn, Hwq, Hwi, Hwr.
    assert (Hwone : inFlight waiting = 1) by congruence.
    split; [auto |]. split.
    + intros next.
      destruct (settle_with_request_as_client waiting result Hwone Hwq)
        as (Hnn & Hnq & Hni & Hnr).
      fold next in Hnn, Hnq, Hni, Hnr.
      split; [congruence |]. split; [exact Hni |]. split; [exact Hnq |].
      intros role' result' after.
      destruct (settle_without_request role' next result' Hni Hnq) as (Han & Hai & Har).
      fold after in Han, Hai, Har. auto.
    + intros role Hrole dropped.
      destruct (settle_with_request_other_role role waiting result Hrole Hwone Hwq)
        as (Hdn & Hdq & Hdi & Hdr).
      fold dropped in Hdn, Hdq, Hdi, Hdr.
      repeat split; congruence.
Qed.

End Renegotiation.

Section RenegotiationWitness.

Import WebRtc TestBrowser.

Lemma renegotiation_coalesces_witness :
  (forall k,
      inFlight (@endpoint_run test_browser (@endpoint_initial test_browser)
                              (firstn k second_offer_pending)) <= 1)
  /\ (let e := @endpoint_run test_browser (@endpoint_initial test_browser)
                             second_offer_pending in
      inFlight e = 1 ->
      forall (n : nat) (result : OfferResult),
        let waiting := endpoint_run e (repeat (Some client, negotiate_called) (S n)) in
        (offers_started waiting = offers_started e
         /\ inFlight waiting = 1
         /\ hasQueuedRenegotiation (manager waiting) = true)
        /\ (let next := endpoint_step waiting (Some client) (offer_settled result) in
            offers_started next = S (offers_started e)
            /\ inFlight next = 1
            /\ hasQueuedRenegotiation (manager next) = false
            /\ forall (role' : option Role) (result' : OfferResult),
                let after := endpoint_step next role' (offer_settled result') in
                offers_started after = offers_started next
                /\ inFlight after = 0
                /\ isNegotiating (manager after) = false)
        /\ (forall role : option Role,
               role <> Some client ->
               let dropped := endpoint_step waiting role (offer_settled result) in
               offers_started dropped = offers_started e
               /\ inFlight dropped = 0
               /\ isNegotiating (manager dropped) = false
               /\ hasQueuedRenegotiation (manager dropped) = false)).
Proof.
  apply (@renegotiation_coalesces test_browser second_offer_pending).
  reflexivity.
Defined.

(** Three requests while the first offer is in the making give one
    further offer. *)
Example three_requests_one_follow_up :
  trace (@endpoint_run test_browser (@endpoint_initial test_browser)
           [(Some client, negotiate_called);
            (Some client, negotiate_called);
            (Some client, negotiate_called);
            (Some client, negotiate_called);
            (Some client, offer_settled (offer_created (Some "o1") true));
            (Some client, offer_settled (offer_created (Some "o2") true))])
  = [call_createDataChannel "remote-control"; call_createOffer;
     call_setLocalDescription (Some "o1"); onSignal (offer "o1"); call_createOffer;
     call_setLocalDescription (Some "o2"); onSignal (offer "o2")].
Proof. reflexivity. Qed.

(** A request recorded as client is dropped when the role is host by
    the time the offer in the making settles. *)
Example request_dropped_when_role_changes :
  let e := @endpoint_run test_browser (@endpoint_initial test_browser)
             [(Some client, negotiate_called);
              (Some client, negotiate_called);
              (Some host, offer_settled (offer_created (Some "o1") true))] in
  trace e = [call_createDataChannel "remote-control"; call_createOffer;
             call_setLocalDescription (Some "o1"); onSignal (offer "o1")]
  /\ inFlight e = 0
  /\ isNegotiating (manager e) = false
  /\ hasQueuedRenegotiation (manager e) = false.
Proof. repeat split; reflexivity. Qed.

(** Nothing waits for the answer: once the first offer has been handed
    to [onSignal] the next [negotiateAsClient] calls [createOffer] again,
    while the connection still has no remote description. *)
Example second_offer_does_not_wait_for_answer :
  let sent := @endpoint_run test_browser (@endpoint_initial test_browser)
                [(Some client, negotiate_called);
                 (Some client, offer_settled (offer_created (Some "o1") true))] in
  let again := endpoint_step sent (Some client) negotiate_called in
  inFlight sent = 0
  /\ isNegotiating (manager sent) = false
  /\ option_map remote (peerConnection (manager sent)) = Some None
  /\ trace again = [call_createDataChannel "remote-control"; call_createOffer;
                    call_setLocalDescription (Some "o1"); onSignal (offer "o1");
                    call_createOffer]
  /\ option_map remote (peerConnection (manager again)) = Some None.
Proof. repeat split; reflexivity. Qed.

(** C6, as stated, fails: [closePeerConnection] clears [isNegotiating]
    while the activation that set it is still suspended at [createOffer],
    so the [negotiateAsClient] that follows it (as in
    [rebuildAfterReconnect]) calls [createOffer] as well: two offers are
    in the making at once. *)
Lemma closing_mid_round_allows_second_round :
  inFlight (@endpoint_run test_browser (@endpoint_initial test_browser)
              [(Some client, negotiate_called)]) = 1
  /\ inFlight (@endpoint_run test_browser (@endpoint_initial test_browser)
                 [(Some client, negotiate_called);
                  (Some client, connection_closed true);
                  (Some client, negotiate_called)]) = 2
  /\ offers_started (@endpoint_run test_browser (@endpoint_initial test_browser)
                       [(Some client, negotiate_called);
                        (Some client, connection_closed true);
                        (Some client, negotiate_called)]) = 2.
Proof. repeat split; reflexivity. Qed.

End RenegotiationWitness.

(** ** Room codes *)

Section RoomCodes.

Import MemoryStore Decimal.

Lemma digit_char (m : N) :
  (m < 10)%N ->
  is_digit (ascii_of_N (48 + m)) = true /\ digit_value (ascii_of_N (48 + m)) = m.
Proof.
  intros Hm. unfold is_digit, between, digit_value.
  rewrite N_ascii_embedding by lia.
  split; [| lia].
  apply andb_true_iff. split; apply N.leb_le; lia.
Qed.

Lemma digits_rev_digits (fuel : nat) (n : N) :
  forallb is_digit (digits_rev fuel n) = true.
Proof.
  revert n. induction fuel as [| fuel IH]; intros n; [reflexivity |].
  assert (Hd : is_digit (ascii_of_N (48 + n mod 10)) = true).
  { apply digit_char. apply N.mod_lt. discriminate. }
  cbn [digits_rev]. cbv zeta.
  destruct (n <? 10)%N; cbn [forallb]; rewrite Hd; [reflexivity | apply IH].
Qed.

Lemma digits_rev_length (fuel k : nat) (n : N) :
  (n < 10 ^ N.of_nat (S k))%N -> List.length (digits_rev fuel n) <= S k.
Proof.
  revert k n. induction fuel as [| fuel IH]; intros k n Hn; [simpl; lia |].
  cbn [digits_rev]. cbv zeta.
  destruct (n <? 10)%N eqn:Hsmall; cbn [List.length]; [lia |].
  apply N.ltb_ge in Hsmall.
  destruct k as [| k].
  - simpl in Hn. lia.
  - specialize (IH k (n / 10)%N).
    assert (Hdiv : (n / 10 < 10 ^ N.of_nat (S k))%N).
    { apply N.Div0.div_lt_upper_bound.
      replace (N.of_nat (S (S k))) with (N.succ (N.of_nat (S k))) in Hn by lia.
      rewrite N.pow_succ_r' in Hn. exact Hn. }
    specialize (IH Hdiv). lia.
Qed.

Lemma decimal_snoc (l : list ascii) (c : ascii) :
  decimal (l ++ [c]) = (10 * decimal l + digit_value c)%N.
Proof. unfold decimal. rewrite fold_left_app. reflexivity. Qed.

Lemma digits_rev_value (fuel : nat) (n : N) :
  (n < 10 ^ N.of_nat fuel)%N -> decimal (rev (digits_rev fuel n)) = n.
Proof.
  revert n. induction fuel as [| fuel IH]; intros n Hn.
  - simpl in Hn. assert (n = 0%N) by lia. subst n. reflexivity.
  - cbn [digits_rev]. cbv zeta.
    destruct (digit_char (n mod 10)) as [_ Hvalue]; [apply N.mod_lt; discriminate |].
    destruct (n <? 10)%N eqn:Hsmall.
    + apply N.ltb_lt in Hsmall. unfold decimal. cbn [rev app fold_left].
      rewrite Hvalue, N.mod_small by exact Hsmall. lia.
    + cbn [rev]. rewrite decimal_snoc, Hvalue, IH.
      * pose proof (N.div_mod n 10). lia.
      * apply N.Div0.div_lt_upper_bound.
        replace (N.of_nat (S fuel)) with (N.succ (N.of_nat fuel)) in Hn by lia.
        rewrite N.pow_succ_r' in Hn. exact Hn.
Qed.

Lemma toString_fuel (n : N) : (n < 10 ^ N.of_nat (S (N.to_nat (N.log2 n))))%N.
Proof.
  replace (N.of_nat (S (N.to_nat (N.log2 n)))) with (N.succ (N.log2 n)) by lia.
  destruct (N.eq_dec n 0) as [-> | Hpos]; [reflexivity |].
  apply N.lt_le_trans with (2 ^ N.succ (N.log2 n))%N.
  - apply N.log2_spec. lia.
  - apply N.pow_le_mono_l. lia.
Qed.

Lemma string_length_app (a b : string) :
  String.length (a ++ b) = String.length a + String.length b.
Proof. induction a as [| c a IH]; simpl; [reflexivity | now rewrite IH]. Qed.

Lemma all_chars_app (p : ascii -> bool) (a b : string) :
  all_chars p (a ++ b) = all_chars p a && all_chars p b.
Proof.
  induction a as [| c a IH]; simpl; [reflexivity |]. rewrite IH. apply andb_assoc.
Qed.

Lemma list_of_string_app (a b : string) :
  list_ascii_of_string (a ++ b) = list_ascii_of_string a ++ list_ascii_of_string b.
Proof. induction a as [| c a IH]; simpl; [reflexivity | now rewrite IH]. Qed.

Lemma string_of_list_length (l : list ascii) :
  String.length (string_of_list_ascii l) = List.length l.
Proof. induction l as [| c l IH]; simpl; [reflexivity | now rewrite IH]. Qed.

Lemma all_chars_of_list (p : ascii -> bool) (l : list ascii) :
  all_chars p (string_of_list_ascii l) = forallb p l.
Proof. induction l as [| c l IH]; simpl; [reflexivity | now rewrite IH]. Qed.

Lemma repeat_char_length (c : ascii) (n : nat) : String.length (repeat_char c n) = n.
Proof. induction n as [| n IH]; simpl; [reflexivity | now rewrite IH]. Qed.

Lemma zeros_digits (n : nat) : all_chars is_digit (repeat_char "0"%char n) = true.
Proof. induction n as [| n IH]; simpl; [reflexivity | exact IH]. Qed.

Lemma zeros_value (n : nat) (l : list ascii) :
  decimal (list_ascii_of_string (repeat_char "0"%char n) ++ l) = decimal l.
Proof.
  induction n as [| n IH]; [reflexivity |].
  unfold decimal in *. simpl. exact IH.
Qed.

Lemma forallb_reversed (A : Type) (p : A -> bool) (l : list A) :
  forallb p (rev l) = forallb p l.
Proof.
  induction l as [| x l IH]; simpl; [reflexivity |].
  rewrite forallb_app, IH. simpl. rewrite andb_true_r. apply andb_comm.
Qed.

Lemma random_code_pattern (draw : N) :
  (draw < 1000000)%N -> MemoryStore.ROOM_ID_PATTERN (randomRoomId draw) = true.
Proof.
  intros Hdraw. unfold randomRoomId, padStart0, toString.
  set (digits := rev (digits_rev (S (N.to_nat (N.log2 draw))) draw)).
  assert (Hlen : List.length digits <= 6).
  { unfold digits. rewrite length_rev.
    apply (digits_rev_length _ 5). exact Hdraw. }
  unfold MemoryStore.ROOM_ID_PATTERN.
  rewrite string_length_app, repeat_char_length, string_of_list_length.
  rewrite all_chars_app, zeros_digits, all_chars_of_list.
  replace (6 - List.length digits + List.length digits) with 6 by lia.
  unfold digits. rewrite forallb_reversed, digits_rev_digits.
  reflexivity.
Qed.

Lemma random_code_value (draw : N) : code_value (randomRoomId draw) = draw.
Proof.
  unfold code_value, randomRoomId, padStart0, toString.
  rewrite list_of_string_app, zeros_value, list_ascii_of_string_of_list_ascii.
  apply digits_rev_value, toString_fuel.
Qed.

(** [randomRoomId]: for a draw below one million the code is six decimal
    digits, and read back as a number it is the draw; so different draws
    give different codes. *)
Theorem room_code_is_the_padded_draw (draw other : N) :
  (draw < 1000000)%N ->
  MemoryStore.ROOM_ID_PATTERN (randomRoomId draw) = true
  /\ code_value (randomRoomId draw) = draw
  /\ (randomRoomId draw = randomRoomId other -> draw = other).
Proof.
  intros Hdraw. split; [now apply random_code_pattern |].
  split; [apply random_code_value |].
  intros Hsame. rewrite <- (random_code_value draw), <- (random_code_value other).
  now rewrite Hsame.
Qed.

Lemma room_code_is_the_padded_draw_witness :
  MemoryStore.ROOM_ID_PATTERN (randomRoomId 42) = true
  /\ code_value (randomRoomId 42) = 42%N
  /\ (randomRoomId 42 = randomRoomId 1000042 -> 42%N = 1000042%N).
Proof.
  apply (room_code_is_the_padded_draw 42 1000042). reflexivity.
Defined.

Lemma ensureRoomId_from_sound (draws : list N) (rooms : RoomMap) (attempts : N)
      (k : RoomId) :
  ensureRoomId_from attempts draws rooms = Some k ->
  MemoryStore.ROOM_ID_PATTERN k = true /\ has k rooms = false
  /\ exists draw, In draw draws /\ k = randomRoomId draw.
Proof.
  revert attempts. induction draws as [| draw later IH]; simpl; [discriminate |].
  intros attempts. destruct (attempts <? 1000000)%N; [| discriminate].
  destruct (MemoryStore.ROOM_ID_PATTERN (randomRoomId draw)) eqn:Hpattern; simpl.
  - destruct (has (randomRoomId draw) rooms) eqn:Hhas; simpl.
    + intros Hlater. destruct (IH _ Hlater) as (Hp & Hh & d & Hin & Hd).
      repeat split; auto. exists d. auto.
    + intros [= <-]. repeat split; auto. exists draw. auto.
  - intros Hlater. destruct (IH _ Hlater) as (Hp & Hh & d & Hin & Hd).
    repeat split; auto. exists d. auto.
Qed.

Lemma has_getRoom (rooms : RoomMap) (k : RoomId) :
  has k rooms = false <-> getRoom rooms k = None.
Proof.
  induction rooms as [| [k' r] rest IH]; simpl; [tauto |].
  destruct (k' =? k)%string; simpl; [split; discriminate | exact IH].
Qed.

Lemma getRoom_snoc (rooms : RoomMap) (k other : RoomId) (room : Room) :
  getRoom (rooms ++ [(k, room)]) other
  = match getRoom rooms other with
    | Some found => Some found
    | None => if (k =? other)%string then Some room else None
    end.
Proof.
  induction rooms as [| [k' r] rest IH]; simpl; [reflexivity |].
  destruct (k' =? other)%string; [reflexivity | exact IH].
Qed.

(** [createRoom]: the room it returns carries a six-digit code that no
    room had; afterwards the registry finds the new room under its code,
    and every other lookup answers as before. *)
Theorem createRoom_registers_fresh_code
        (draws : list N) (userId : UserId) (socketId : SocketId)
        (rooms rooms' : RoomMap) (room : Room) :
  createRoom draws userId socketId rooms = Some (room, rooms') ->
  MemoryStore.ROOM_ID_PATTERN (id room) = true
  /\ getRoom rooms (id room) = None
  /\ getRoom rooms' (id room) = Some room
  /\ (forall other, other <> id room -> getRoom rooms' other = getRoom rooms other)
  /\ findRoomByUserId rooms' userId
     = match findRoomByUserId rooms userId with
       | Some found => Some found
       | None => Some (id room, room, host)
       end.
Proof.
  unfold createRoom, ensureRoomId.
  destruct (ensureRoomId_from 0 draws rooms) as [k |] eqn:Hcode; [| discriminate].
  intros [= <- <-]. simpl.
  destruct (ensureRoomId_from_sound _ _ _ _ Hcode) as (Hpattern & Hfree & _).
  unfold set. rewrite Hfree.
  pose proof (proj1 (has_getRoom rooms k) Hfree) as Hnone.
  split; [exact Hpattern |]. split; [exact Hnone |].
  split; [rewrite getRoom_snoc, Hnone, String.eqb_refl; reflexivity |].
  split.
  - intros other Hother. rewrite getRoom_snoc.
    destruct (getRoom rooms other); [reflexivity |].
    destruct (k =? other)%string eqn:Hk; [| reflexivity].
    apply String.eqb_eq in Hk. congruence.
  - clear. induction rooms as [| [k' r] rest IH]; simpl.
    + now rewrite String.eqb_refl.
    + destruct (hostUserId r =? userId)%string; [reflexivity |].
      destruct (field_is (clientUserId r) userId); [reflexivity | exact IH].
Qed.

Lemma createRoom_registers_fresh_code_witness :
  MemoryStore.ROOM_ID_PATTERN "000017" = true
  /\ getRoom [] "000017" = None
  /\ getRoom [("000017", mkRoom "000017" "host-user-0001" None (Some "s1") None false false)]
             "000017"
     = Some (mkRoom "000017" "host-user-0001" None (Some "s1") None false false)
  /\ (forall other, other <> "000017" ->
      getRoom [("000017", mkRoom "000017" "host-user-0001" None (Some "s1") None
                                 false false)] other = getRoom [] other)
  /\ findRoomByUserId
       [("000017", mkRoom "000017" "host-user-0001" None (Some "s1") None false false)]
       "host-user-0001"
     = Some ("000017",
             mkRoom "000017" "host-user-0001" None (Some "s1") None false false, host).
Proof.
  apply (createRoom_registers_fresh_code [17%N] "host-user-0001" "s1" []
           [("000017", mkRoom "000017" "host-user-0001" None (Some "s1") None false false)]
           (mkRoom "000017" "host-user-0001" None (Some "s1") None false false)).
  reflexivity.
Defined.



End RoomCodes.

(** ** Normalization as a projection *)

Section Normalization.

Import MemoryStore Gateway Scenario Spec.

Ltac room_cases room :=
  destruct room as [i hu [cu |] [hs |] [cs |] ca cam];
  unfold room_invariants, invariant1, invariant2, invariant3,
    normalizeRoomState, truthy, field_is, field_eqb; cbv zeta; simpl;
  repeat match goal with
    | |- context [truthy_string ?s] => destruct (truthy_string s) eqn:?; simpl
    | |- context [(?a =? ?b)%string] => destruct (a =? b)%string eqn:?; simpl
    end.

Lemma normalize_valid (room : Room) :
  room_invariants room = true -> normalizeRoomState room = room.
Proof.
  room_cases room; intros Hinv; try reflexivity; try discriminate; congruence.
Qed.

Lemma normalize_twice (room : Room) :
  normalizeRoomState (normalizeRoomState room) = normalizeRoomState room.
Proof. apply normalize_valid, normalize_establishes_invariants. Qed.

(** [normalizeRoomState] is idempotent, and the room it returns
    satisfies the three invariants, whatever room it is given. *)
Theorem normalize_idempotent (room : Room) :
  normalizeRoomState (normalizeRoomState room) = normalizeRoomState room
  /\ room_invariants (normalizeRoomState room) = true.
Proof.
  split; [apply normalize_twice | apply normalize_establishes_invariants].
Qed.

(** [normalizeRoomState] leaves a room untouched, flags included, exactly
    when the room satisfies the three invariants. *)
Theorem normalize_fixes_exactly_valid_rooms (room : Room) :
  normalizeRoomState room = room <-> room_invariants room = true.
Proof.
  split.
  - intros Hfixed. rewrite <- Hfixed. apply normalize_establishes_invariants.
  - apply normalize_valid.
Qed.

End Normalization.

(** ** Conditions every run keeps *)

Section KeptConditions.

Import MemoryStore Gateway Scenario Spec Conditions.

Lemma sound_normalize (room : Room) : identity_sound (normalizeRoomState room) = true.
Proof.
  pose proof (normalize_establishes_invariants room) as Hinv.
  unfold room_invariants in Hinv. unfold identity_sound.
  apply andb_true_iff in Hinv as [Hinv _]. exact Hinv.
Qed.

Lemma backed_normalize (room : Room) :
  flags_backed room = true -> flags_backed (normalizeRoomState room) = true.
Proof.
  destruct room as [i hu [cu |] [hs |] [cs |] [|] [|]];
    unfold flags_backed, normalizeRoomState, truthy, field_is, field_eqb; cbv zeta; simpl;
    repeat match goal with
      | |- context [truthy_string ?s] => destruct (truthy_string s) eqn:?; simpl
      | |- context [(?a =? ?b)%string] => destruct (a =? b)%string eqn:?; simpl
      end; auto.
Qed.

Lemma backed_attach (room : Room) (role : Role) (socketId : SocketId) :
  flags_backed room = true -> flags_backed (attachSocket room role socketId) = true.
Proof.
  destruct room as [i hu cu hs cs [|] [|]], role; unfold flags_backed; simpl; auto.
Qed.

Lemma backed_restore (g : Gateway) (socketId : SocketId) (room : Room) (role : Role) :
  flags_backed room = true ->
  flags_backed (fst (restoreSession g socketId room role)) = true.
Proof.
  intros Hroom. unfold restoreSession. simpl.
  now apply backed_normalize, backed_attach, backed_normalize.
Qed.

Lemma sound_restore (g : Gateway) (socketId : SocketId) (room : Room) (role : Role) :
  identity_sound (fst (restoreSession g socketId room role)) = true.
Proof. unfold restoreSession. simpl. apply sound_normalize. Qed.

Lemma kept_normalize (room : Room) :
  flags_backed room = true -> kept (normalizeRoomState room) = true.
Proof.
  unfold kept. intros Hb. now rewrite sound_normalize, backed_normalize.
Qed.

Lemma kept_backed (room : Room) : kept room = true -> flags_backed room = true.
Proof. unfold kept. intros H. now apply andb_true_iff in H as [_ Hb]. Qed.

Lemma kept_restore (room : Room) (role : Role) (socketId : SocketId) :
  flags_backed room = true ->
  kept (normalizeRoomState (attachSocket (normalizeRoomState room) role socketId)) = true.
Proof.
  intros Hb. now apply kept_normalize, backed_attach, backed_normalize.
Qed.

Ltac flag_cases room :=
  destruct room as [i hu [cu |] [hs |] [cs |] [|] [|]];
  unfold kept, identity_sound, flags_backed, invariant1, invariant2,
    truthy, field_is, field_eqb; simpl;
  repeat match goal with
    | |- context [truthy_string ?s] => destruct (truthy_string s) eqn:?; simpl
    | |- context [(?a =? ?b)%string] => destruct (a =? b)%string eqn:?; simpl
    end; auto; try discriminate; try congruence.

Lemma kept_control (room : Room) (active : bool) :
  kept room = true ->
  kept (set_controlActive (active && truthy (clientSocketId room)) room) = true.
Proof. destruct active; flag_cases room. Qed.

Lemma kept_camera (room : Room) (active : bool) (socketId : SocketId) :
  kept room = true -> field_is (clientSocketId room) socketId = true ->
  kept (set_cameraActive active room) = true.
Proof. destruct active; flag_cases room. Qed.

Lemma kept_camera_off (room : Room) :
  kept room = true -> kept (set_cameraActive false room) = true.
Proof. flag_cases room. Qed.

Lemma kept_join (room : Room) (userId : UserId) (socketId : SocketId) :
  (hostUserId room =? userId)%string = false -> truthy_string userId = true ->
  kept (set_cameraActive false
          (set_controlActive false
             (set_clientSocketId (Some socketId)
                (set_clientUserId (Some userId) room)))) = true.
Proof.
  intros Hhost Huser. destruct room as [i hu cu hs cs ca cam].
  unfold kept, identity_sound, flags_backed, invariant1, invariant2, truthy, field_is.
  simpl in *. rewrite Huser, String.eqb_sym, Hhost. simpl.
  destruct (truthy_string socketId); reflexivity.
Qed.

Lemma kept_camera_failure (room : Room) :
  kept room = true ->
  kept (set_cameraActive false
          (set_controlActive false
             (if field_is (clientUserId (set_clientSocketId None room))
                          (hostUserId (set_clientSocketId None room))
              then set_clientUserId None (set_clientSocketId None room)
              else set_clientSocketId None room))) = true.
Proof. flag_cases room. Qed.

Lemma kept_clear (room : Room) (role : Role) :
  kept room = true -> kept (clearSocket room role) = true.
Proof. destruct role; unfold clearSocket; flag_cases room. Qed.

Lemma backed_set_client (room : Room) (userId : UserId) :
  flags_backed room = true -> flags_backed (set_clientUserId (Some userId) room) = true.
Proof. destruct room; unfold flags_backed; simpl; auto. Qed.

Lemma Forall_put (p : Room -> bool) (rooms : RoomMap) (k : RoomId) (room : Room) :
  forallb (fun entry => p (snd entry)) rooms = true -> p room = true ->
  forallb (fun entry => p (snd entry)) (put k room rooms) = true.
Proof.
  intros Hall Hroom. induction rooms as [| [k' r] rest IH]; simpl in *; [reflexivity |].
  apply andb_true_iff in Hall as [Hr Hrest].
  destruct (k' =? k)%string; simpl.
  - now rewrite Hroom, Hrest.
  - now rewrite Hr, IH.
Qed.

Lemma Forall_entry (p : Room -> bool) (rooms : RoomMap) (k : RoomId) (room : Room) :
  forallb (fun entry => p (snd entry)) rooms = true -> In (k, room) rooms -> p room = true.
Proof.
  intros Hall Hin. rewrite forallb_forall in Hall. exact (Hall _ Hin).
Qed.

End KeptConditions.
Section KeptHandlers.

Import MemoryStore Gateway Scenario Spec Conditions.

Ltac tidy := cbn [fst snd rooms negb andb orb].

Ltac open_handler :=
  unfold all_rooms in *;
  unfold on_identify, on_room_create, on_room_join, on_rejoin_room, on_webrtc_signal,
    on_control_status, on_camera_request, on_camera_permission, on_camera_state,
    on_media_kind, on_disconnect, removeSocket, restoreSession, reject, identify_first,
    store, with_rooms;
  cbv zeta.

Ltac addressed Hall stored Hget Hroom :=
  match goal with
  | |- context [getRoom (rooms ?g) ?k] =>
      destruct (getRoom (rooms g) k) as [stored |] eqn:Hget; tidy; [| exact Hall]
  end;
  pose proof (kept_normalize _ (kept_backed _ (Forall_entry _ _ _ _ Hall
                                                 (getRoom_entry _ _ _ Hget)))) as Hroom.

Ltac stored_leaf Hall :=
  tidy; rewrite ?put_put;
  first [ exact Hall | apply Forall_put; [exact Hall |] ].

Lemma on_identify_kept g socketId payload :
  all_rooms kept g = true -> all_rooms kept (fst (on_identify g socketId payload)) = true.
Proof.
  intros Hall. open_handler.
  destruct (isIdentifyPayload payload); tidy; [| exact Hall].
  destruct (findRoomByUserId (rooms g) (str (get payload "userId")))
    as [[[k room] role] |] eqn:Hfind; tidy; [| exact Hall].
  apply Forall_put; [exact Hall |].
  apply kept_restore, kept_backed.
  exact (Forall_entry _ _ _ _ Hall (find_user_some _ _ _ _ _ Hfind)).
Qed.

Lemma on_room_create_kept g socketId draws :
  all_rooms kept g = true -> all_rooms kept (fst (on_room_create g socketId draws)) = true.
Proof.
  intros Hall. open_handler.
  destruct (ensureIdentified g socketId) as [who |]; tidy; [| exact Hall].
  destruct (findRoomByUserId (rooms g) who) as [[[k room] [|]] |] eqn:Hfind; tidy;
    [| exact Hall |].
  - apply Forall_put; [exact Hall |].
    apply (kept_restore room host socketId), kept_backed.
    exact (Forall_entry _ _ _ _ Hall (find_user_some _ _ _ _ _ Hfind)).
  - unfold createRoom. destruct (ensureRoomId draws (rooms g)) as [k |]; tidy;
      [| exact Hall].
    unfold set. cbn [id]. destruct (has k (rooms g)); tidy.
    + apply Forall_put; [exact Hall | reflexivity].
    + rewrite forallb_app, Hall. reflexivity.
Qed.

Lemma on_room_join_kept g socketId payload :
  all_rooms kept g = true -> all_rooms kept (fst (on_room_join g socketId payload)) = true.
Proof.
  intros Hall. open_handler.
  destruct (isRoomJoinPayload payload); tidy; [| exact Hall].
  destruct (ensureIdentified g socketId) as [who |] eqn:Hwho; tidy; [| exact Hall].
  destruct (ensureIdentified_truthy _ _ _ Hwho) as [_ Htruthy].
  addressed Hall stored Hget Hroom.
  repeat match goal with
         | |- context [if ?b then _ else _] => destruct b eqn:?; tidy
         end; stored_leaf Hall; try exact Hroom.
  now apply kept_join.
Qed.

Lemma on_rejoin_room_kept g socketId payload :
  all_rooms kept g = true -> all_rooms kept (fst (on_rejoin_room g socketId payload)) = true.
Proof.
  intros Hall. open_handler.
  destruct (isRejoinRoomPayload payload); tidy; [| exact Hall].
  destruct (ensureIdentified g socketId) as [who |] eqn:Hwho; tidy; [| exact Hall].
  addressed Hall stored Hget Hroom.
  destruct (role_of (get payload "role")).
  - destruct (hostUserId (normalizeRoomState stored) =? who)%string; tidy;
      stored_leaf Hall; [| exact Hroom].
    apply (kept_restore _ host socketId). now apply kept_backed.
  - destruct (hostUserId (normalizeRoomState stored) =? who)%string; tidy;
      [stored_leaf Hall; exact Hroom |].
    destruct (truthy (clientUserId (normalizeRoomState stored))); tidy.
    + destruct (field_is (clientUserId (normalizeRoomState stored)) who); tidy;
        stored_leaf Hall; [| exact Hroom].
      apply (kept_restore _ client socketId). now apply kept_backed.
    + cbn [clientUserId set_clientUserId field_is]. rewrite String.eqb_refl. tidy.
      stored_leaf Hall.
      apply (kept_restore _ client socketId), backed_set_client. now apply kept_backed.
Qed.

Lemma on_relay_and_status_kept g socketId payload :
  all_rooms kept g = true ->
  all_rooms kept (fst (on_webrtc_signal g socketId payload)) = true
  /\ all_rooms kept (fst (on_control_status g socketId payload)) = true
  /\ all_rooms kept (fst (on_media_kind g socketId payload)) = true.
Proof.
  intros Hall. repeat split; open_handler.
  - destruct (isWebRtcSignalPayload payload); tidy; [| exact Hall].
    destruct (ensureIdentified g socketId) as [who |]; tidy; [| exact Hall].
    addressed Hall stored Hget Hroom.
    repeat match goal with
           | |- context [match ?x with _ => _ end] => destruct x; tidy
           end; stored_leaf Hall; exact Hroom.
  - destruct (isControlStatusPayload payload); tidy; [| exact Hall].
    destruct (ensureIdentified g socketId) as [who |]; tidy; [| exact Hall].
    addressed Hall stored Hget Hroom.
    match goal with
    | |- context [if ?b then _ else _] => destruct b; tidy
    end; stored_leaf Hall; [exact Hroom | now apply kept_control].
  - destruct (isMediaKindPayload payload); tidy; [| exact Hall].
    destruct (ensureIdentified g socketId) as [who |]; tidy; [| exact Hall].
    addressed Hall stored Hget Hroom.
    match goal with
    | |- context [if ?b then _ else _] => destruct b; tidy
    end; stored_leaf Hall; exact Hroom.
Qed.

Lemma on_camera_handlers_kept g socketId payload :
  all_rooms kept g = true ->
  all_rooms kept (fst (on_camera_request g socketId payload)) = true
  /\ all_rooms kept (fst (on_camera_permission g socketId payload)) = true
  /\ all_rooms kept (fst (on_camera_state g socketId payload)) = true.
Proof.
  intros Hall. repeat split; open_handler.
  - destruct (isCameraRequestPayload payload); tidy; [| exact Hall].
    destruct (ensureIdentified g socketId) as [who |]; tidy; [| exact Hall].
    addressed Hall stored Hget Hroom.
    match goal with
    | |- context [if ?b then _ else _] => destruct b; tidy
    end; [stored_leaf Hall; exact Hroom |].
    destruct (clientSocketId (normalizeRoomState stored)) as [clientSocket |] eqn:Hcs;
      tidy; [| stored_leaf Hall; exact Hroom].
    destruct (truthy_string clientSocket); tidy; [| stored_leaf Hall; exact Hroom].
    match goal with
    | |- context [if ?b then (_, _) else _] => destruct b; tidy
    end; stored_leaf Hall; [| exact Hroom].
    now apply kept_camera_failure.
  - destruct (isCameraPermissionPayload payload); tidy; [| exact Hall].
    destruct (ensureIdentified g socketId) as [who |]; tidy; [| exact Hall].
    addressed Hall stored Hget Hroom.
    match goal with
    | |- context [if ?b then _ else _] => destruct b; tidy
    end; stored_leaf Hall; [exact Hroom |].
    destruct (bool_of (get payload "granted")); tidy;
      [exact Hroom | now apply kept_camera_off].
  - destruct (isCameraStatePayload payload); tidy; [| exact Hall].
    destruct (ensureIdentified g socketId) as [who |]; tidy; [| exact Hall].
    addressed Hall stored Hget Hroom.
    destruct (canUserActAsClient (normalizeRoomState stored) who); tidy;
      [| stored_leaf Hall; exact Hroom].
    destruct (field_is (clientSocketId (normalizeRoomState stored)) socketId) eqn:Hcs;
      tidy; stored_leaf Hall; [| exact Hroom].
    now apply (kept_camera _ _ socketId).
Qed.

Lemma on_disconnect_kept g socketId :
  all_rooms kept g = true -> all_rooms kept (fst (on_disconnect g socketId)) = true.
Proof.
  intros Hall. open_handler.
  destruct (findRoomBySocketId (rooms g) socketId) as [[[k room] role] |] eqn:Hfind;
    tidy; [| exact Hall].
  apply Forall_put; [exact Hall |]. apply kept_clear.
  exact (Forall_entry _ _ _ _ Hall (find_socket_some _ _ _ _ _ Hfind)).
Qed.

Lemma step_kept g socketId ev :
  all_rooms kept g = true -> all_rooms kept (fst (step g socketId ev)) = true.
Proof.
  intros Hall.
  pose proof (on_relay_and_status_kept g socketId) as Hrelay.
  pose proof (on_camera_handlers_kept g socketId) as Hcamera.
  unfold step.
  destruct ev; tidy;
    [ destruct (connected g socketId || negb (truthy_string socketId)); tidy; exact Hall
    | destruct (connected g socketId) eqn:Hconn; tidy; [| exact Hall] .. ].
  - now apply on_identify_kept.
  - now apply on_room_create_kept.
  - now apply on_room_join_kept.
  - now apply on_rejoin_room_kept.
  - now apply Hrelay.
  - now apply Hrelay.
  - now apply Hcamera.
  - now apply Hcamera.
  - now apply Hcamera.
  - now apply Hrelay.
  - pose proof (on_disconnect_kept g socketId Hall) as Hd.
    destruct (on_disconnect g socketId) as [g' out]. exact Hd.
Qed.

Lemma run_kept events g :
  all_rooms kept g = true -> all_rooms kept (run g events) = true.
Proof.
  revert g. induction events as [| [socketId ev] later IH]; tidy; intros g Hall;
    [exact Hall |].
  apply IH. now apply step_kept.
Qed.

Lemma all_rooms_weaken (p q : Room -> bool) (g : Gateway) :
  (forall room, p room = true -> q room = true) ->
  all_rooms p g = true -> all_rooms q g = true.
Proof.
  intros Hpq. unfold all_rooms. rewrite !forallb_forall. auto.
Qed.

Lemma kept_initial : all_rooms kept initial = true.
Proof. reflexivity. Qed.

Lemma all_rooms_entry (p : Room -> bool) (g : Gateway) (k : RoomId) (room : Room) :
  all_rooms p g = true -> getRoom (rooms g) k = Some room -> p room = true.
Proof.
  intros Hall Hget. exact (Forall_entry _ _ _ _ Hall (getRoom_entry _ _ _ Hget)).
Qed.

(** Invariants 1 and 2 hold for every room after every sequence of
    events, whatever the events are: a recorded client is never the host,
    and a registered client socket always comes with a recorded client. *)
Theorem client_identity_invariants_always_hold
        (events : list (SocketId * Event)) (k : RoomId) (room : Room) :
  getRoom (rooms (run initial events)) k = Some room ->
  invariant1 room = true /\ invariant2 room = true.
Proof.
  intros Hget.
  pose proof (all_rooms_entry _ _ _ _ (run_kept events initial kept_initial) Hget) as Hkept.
  unfold kept, identity_sound in Hkept.
  apply andb_true_iff in Hkept as [Hsound _].
  now apply andb_true_iff in Hsound.
Qed.

Lemma client_identity_invariants_always_hold_witness :
  invariant1 (mkRoom code host_user (Some client_user) (Some "s4") (Some "s2") false false)
  = true
  /\ invariant2 (mkRoom code host_user (Some client_user) (Some "s4") (Some "s2")
                        false false) = true.
Proof.
  apply (client_identity_invariants_always_hold busy_session code).
  vm_compute. reflexivity.
Defined.

(** After every sequence of events, a room whose control or camera flag
    is set has a registered client socket. *)
Theorem active_flags_need_client_socket
        (events : list (SocketId * Event)) (k : RoomId) (room : Room) :
  getRoom (rooms (run initial events)) k = Some room ->
  controlActive room = true \/ cameraActive room = true ->
  clientSocketId room <> None.
Proof.
  intros Hget Hactive.
  pose proof (all_rooms_entry _ _ _ _ (run_kept events initial kept_initial) Hget) as Hkept.
  apply kept_backed in Hkept. unfold flags_backed in Hkept.
  destruct (clientSocketId room); [discriminate |].
  destruct Hactive as [Hon | Hon]; rewrite Hon in Hkept; simpl in Hkept;
    rewrite ?orb_true_r in Hkept; discriminate Hkept.
Qed.

Lemma active_flags_need_client_socket_witness :
  clientSocketId (mkRoom code host_user (Some client_user) (Some "s1") (Some "s2")
                         true true) <> None.
Proof.
  apply (active_flags_need_client_socket
           [("s1", EvConnection); ("s1", identify_as host_user);
            ("s1", EvRoomCreate [482913%N]);
            ("s2", EvConnection); ("s2", identify_as client_user);
            ("s2", EvRoomJoin (room_payload code));
            ("s1", EvControlStatus (active_payload code true));
            ("s2", EvCameraState (active_payload code true))] code).
  - vm_compute. reflexivity.
  - left. reflexivity.
Defined.

End KeptHandlers.

(** ** Events before identification *)

Section Rejections.

Import MemoryStore Gateway Scenario Spec Conditions.

(** On a connected socket that has not identified, every event other
    than [identify] leaves registry and sockets as they were and is
    answered with exactly one [room:error]. *)
Theorem unidentified_socket_is_turned_away
        (g : Gateway) (socketId : SocketId) (ev : Event) :
  connected g socketId = true ->
  ensureIdentified g socketId = None ->
  needs_identity ev = true ->
  fst (step g socketId ev) = g
  /\ exists message, emitted g socketId ev = [(socketId, room_error message)].
Proof.
  intros Hconn Hnone Hev. unfold emitted, step.
  destruct ev; try discriminate Hev; rewrite Hconn; cbn [negb];
    unfold on_room_create, on_room_join, on_rejoin_room, on_webrtc_signal,
      on_control_status, on_camera_request, on_camera_permission, on_camera_state,
      on_media_kind, identify_first, reject;
    rewrite Hnone;
    try match goal with
        | |- context [if negb ?b then _ else _] => destruct b
        end;
    cbn [negb fst snd]; split; try reflexivity; eexists; reflexivity.
Qed.

Lemma unidentified_socket_is_turned_away_witness :
  fst (step (run initial [("s1", EvConnection)]) "s1" (EvRoomCreate [7%N]))
  = run initial [("s1", EvConnection)]
  /\ exists message,
      emitted (run initial [("s1", EvConnection)]) "s1" (EvRoomCreate [7%N])
      = [("s1", room_error message)].
Proof.
  apply (unidentified_socket_is_turned_away (run initial [("s1", EvConnection)]) "s1"
           (EvRoomCreate [7%N])); reflexivity.
Defined.

End Rejections.
